(** * Cleaning transforms of [ab_housing.cleaning]

    A shallow embedding of the five pandas-based cleaners of
    [src/ab_housing/cleaning.py] and the properties the specification
    states about them.

    Conventions of the embedding.
    - A data frame is a list of rows; a column that pandas fills with
      [NaN]/[NaT] is an [option] column ([None] is the absent marker).
    - The input of a cleaner is the frame [read_csv] returns, with the
      types pandas gave its columns.  A cell the code turns into text
      before anything else ([str(x)], [astype(str)]) is that text: a
      number is the text Python prints for it (a file field 0.00001,
      held as a float, is the text "1e-05") and a missing cell is the
      text "nan".  A cell the code tests for absence, or applies [.str]
      to, is an [option string]: [None] is a cell that holds no text.
    - Numbers are exact rationals ([Q]); float rounding is not modelled.
    - Timestamps are calendar dates; time of day is not modelled.
    - A call that raises makes the cleaner return [None].
    - The text parsers of pandas whose grammar is not part of this
      repository ([pd.to_datetime] without a format, [pd.to_numeric],
      [pd.PeriodIndex], [float]) are parameters of the cleaners. *)

From Stdlib Require Import ZArith QArith List String Ascii Bool Lia.
From Stdlib Require Import Permutation Sorted.
Import ListNotations.

Open Scope string_scope.
Open Scope Z_scope.

(** ** Python string operations (code points below 256) *)

Module PyStr.

Definition code (c : ascii) : nat := nat_of_ascii c.

(** The decimal digits 0 to 9: what [int], the regex class [\d] and
    the directives of [strptime] read. *)
Definition is_digit (c : ascii) : bool :=
  (48 <=? code c)%nat && (code c <=? 57)%nat.

(** The superscript digits two, three and one (U+00B2, U+00B3, U+00B9). *)
Definition is_superscript_digit (c : ascii) : bool :=
  (code c =? 178)%nat || (code c =? 179)%nat || (code c =? 185)%nat.

(** [str.isdigit] on one character: the decimal digits and the
    superscript digits. *)
Definition isdigit_char (c : ascii) : bool :=
  is_digit c || is_superscript_digit c.

(** The characters [str.strip], [str.split] and the regex class [\s]
    treat as white space. *)
Definition is_space (c : ascii) : bool :=
  let n := code c in
  ((9 <=? n)%nat && (n <=? 13)%nat) || ((28 <=? n)%nat && (n <=? 32)%nat)
  || (n =? 133)%nat || (n =? 160)%nat.

Fixpoint all_chars (p : ascii -> bool) (s : string) : bool :=
  match s with
  | EmptyString => true
  | String c t => p c && all_chars p t
  end.

(** [s.isdigit()]: at least one character, all of them digits in the
    sense of [str.isdigit]. *)
Definition isdigit (s : string) : bool :=
  match s with
  | EmptyString => false
  | _ => all_chars isdigit_char s
  end.

(** [s.replace(c, e, 1)] with [e] the empty string: the first occurrence
    of [c] removed. *)
Fixpoint remove_first (c : ascii) (s : string) : string :=
  match s with
  | EmptyString => EmptyString
  | String d t => if Ascii.eqb d c then t else String d (remove_first c t)
  end.

(** [s.replace(c, e)] with [e] the empty string: every occurrence of [c]
    removed. *)
Fixpoint remove_all (c : ascii) (s : string) : string :=
  match s with
  | EmptyString => EmptyString
  | String d t => if Ascii.eqb d c then remove_all c t else String d (remove_all c t)
  end.

(** [s.replace(c, d)] for single characters. *)
Fixpoint replace_char (c d : ascii) (s : string) : string :=
  match s with
  | EmptyString => EmptyString
  | String e t => String (if Ascii.eqb e c then d else e) (replace_char c d t)
  end.

Fixpoint lstrip (s : string) : string :=
  match s with
  | EmptyString => EmptyString
  | String c t => if is_space c then lstrip t else s
  end.

Definition rev_string (s : string) : string :=
  string_of_list_ascii (rev (list_ascii_of_string s)).

(** [s.strip()]. *)
Definition strip (s : string) : string :=
  rev_string (lstrip (rev_string (lstrip s))).

Definition lower_char (c : ascii) : ascii :=
  let n := code c in
  if ((65 <=? n)%nat && (n <=? 90)%nat)
     || ((192 <=? n)%nat && (n <=? 222)%nat && negb (n =? 215)%nat)
  then ascii_of_nat (n + 32) else c.

(** [s.lower()]. *)
Fixpoint lower (s : string) : string :=
  match s with
  | EmptyString => EmptyString
  | String c t => String (lower_char c) (lower t)
  end.

(** [sub in s]. *)
Fixpoint contains (sub s : string) : bool :=
  prefix sub s
  || match s with
     | EmptyString => false
     | String _ t => contains sub t
     end.

Fixpoint split_from (cur : list ascii) (l : list ascii) : list string :=
  match l with
  | [] => match cur with [] => [] | _ => [string_of_list_ascii (rev cur)] end
  | c :: t =>
      if is_space c then
        match cur with
        | [] => split_from [] t
        | _ => string_of_list_ascii (rev cur) :: split_from [] t
        end
      else split_from (c :: cur) t
  end.

(** [s.split()]: the maximal runs of characters that are not white space. *)
Definition split (s : string) : list string :=
  split_from [] (list_ascii_of_string s).

Definition digit_val (c : ascii) : Z := Z.of_nat (code c) - 48.

(** The value of a run of digits read after the digits worth [acc]. *)
Fixpoint digits_val (acc : Z) (s : string) : Z :=
  match s with
  | EmptyString => acc
  | String c t => digits_val (10 * acc + digit_val c) t
  end.

(** Digits with single underscores between them, as [int] accepts;
    [prev_digit] tells whether the previous character was a digit. *)
Fixpoint int_body (prev_digit : bool) (s : string) : bool :=
  match s with
  | EmptyString => prev_digit
  | String c t =>
      if is_digit c then int_body true t
      else if Ascii.eqb c "_"%char then prev_digit && int_body false t
      else false
  end.

Definition unsigned_int (s : string) : option Z :=
  if int_body false s then Some (digits_val 0 (remove_all "_"%char s)) else None.

(** [int(s)] in base ten: [None] where Python raises [ValueError]. *)
Definition int (s : string) : option Z :=
  match strip s with
  | String "+" t => unsigned_int t
  | String "-" t => option_map Z.opp (unsigned_int t)
  | t => unsigned_int t
  end.

End PyStr.

(** ** Calendar dates *)

Record Date := mkDate { year : Z; month : Z; day : Z }.

Definition date_compare (a b : Date) : comparison :=
  match (year a ?= year b)%Z with
  | Eq => match (month a ?= month b)%Z with
          | Eq => (day a ?= day b)%Z
          | c => c
          end
  | c => c
  end.

Definition date_leb (a b : Date) : bool :=
  match date_compare a b with Gt => false | _ => true end.

Definition date_eqb (a b : Date) : bool :=
  match date_compare a b with Eq => true | _ => false end.

Definition date_lt (a b : Date) : Prop := date_compare a b = Lt.

Definition is_leap (y : Z) : bool :=
  ((y mod 4 =? 0) && negb (y mod 100 =? 0)) || (y mod 400 =? 0).

Definition days_in_month (y m : Z) : Z :=
  if m =? 2 then (if is_leap y then 29 else 28)
  else if (m =? 4) || (m =? 6) || (m =? 9) || (m =? 11) then 30
  else 31.

Definition valid_date (d : Date) : bool :=
  (1 <=? month d) && (month d <=? 12)
  && (1 <=? day d) && (day d <=? days_in_month (year d) (month d)).

(** [Timestamp(y, m, 1) + MonthEnd(0)]: the last day of the month. *)
Definition month_end (y m : Z) : Date := mkDate y m (days_in_month y m).

(** Calendar months and quarters numbered consecutively. *)
Definition month_ord (d : Date) : Z := year d * 12 + (month d - 1).
Definition quarter_ord (d : Date) : Z := year d * 4 + (month d - 1) / 3.

Definition month_end_of_ord (k : Z) : Date := month_end (k / 12) (k mod 12 + 1).
Definition quarter_end_of_ord (k : Z) : Date := month_end (k / 4) (3 * (k mod 4) + 3).

(** ** Frame operations shared by the cleaners *)

Section Frames.
Context {A : Type}.

Fixpoint insert_by (leb : A -> A -> bool) (x : A) (l : list A) : list A :=
  match l with
  | [] => [x]
  | y :: t => if leb x y then x :: y :: t else y :: insert_by leb x t
  end.

(** [sort_values]: rows in non-decreasing key order.  pandas does not
    promise an order among rows of equal key; here they keep their
    original order.  What is proved about the order of a sorted table
    uses only that it is a sorted permutation of the rows. *)
Definition sort_values (leb : A -> A -> bool) (l : list A) : list A :=
  fold_right (insert_by leb) [] l.

(** [Series.shift(1)]: every value moved one row down, the first row
    left absent. *)
Definition shift1 (l : list A) : list (option A) :=
  firstn (List.length l) (None :: map Some l).

(** [df.loc[mask]]: the rows at which the mask is true. *)
Definition loc_mask (rows : list A) (mask : list bool) : list A :=
  map fst (filter snd (combine rows mask)).

(** The last row of a group, absent for an empty group. *)
Fixpoint last_opt (l : list A) : option A :=
  match l with
  | [] => None
  | x :: t => match t with [] => Some x | _ => last_opt t end
  end.
End Frames.

(** The consecutive integers from [lo] to [hi]. *)
Definition zrange (lo hi : Z) : list Z :=
  map (fun i => lo + Z.of_nat i) (seq 0 (Z.to_nat (hi - lo + 1))).

Definition zmin_list (d : Z) (l : list Z) : Z := fold_right Z.min d l.
Definition zmax_list (d : Z) (l : list Z) : Z := fold_right Z.max d l.

(** The bins [resample] lays over a time index: every period from the
    earliest to the latest one observed; none for an empty index. *)
Definition resample_bins (ords : list Z) : list Z :=
  match ords with
  | [] => []
  | k :: t => zrange (zmin_list k t) (zmax_list k t)
  end.

(** The rows for which [f] gives a value ([dropna] after a coercion). *)
Fixpoint keep_some {A B : Type} (f : A -> option B) (l : list A) : list B :=
  match l with
  | [] => []
  | x :: t => match f x with
              | Some y => y :: keep_some f t
              | None => keep_some f t
              end
  end.

(** All the values when every one is there, [None] as soon as one fails
    (a column-wise conversion that raises on its first bad cell). *)
Fixpoint all_some {A : Type} (l : list (option A)) : option (list A) :=
  match l with
  | [] => Some []
  | Some x :: t => option_map (cons x) (all_some t)
  | None :: _ => None
  end.

(** [melt]: one row per (row, column) pair, column by column; a row too
    short for a column holds the default cell there. *)
Definition melt {K C : Type} (dflt : C) (labels : list string)
  (rows : list (K * list C)) : list (K * string * C) :=
  flat_map
    (fun jl => map (fun r => (fst r, snd jl, nth (fst jl) (snd r) dflt)) rows)
    (combine (seq 0 (List.length labels)) labels).

(** Arithmetic on columns with absent values: an absent operand gives an
    absent result. *)
Definition oadd (a b : option Q) : option Q :=
  match a, b with
  | Some x, Some y => Some (x + y)%Q
  | _, _ => None
  end.

Definition osub (a b : option Q) : option Q :=
  match a, b with
  | Some x, Some y => Some (x - y)%Q
  | _, _ => None
  end.

(** [mean] of a group, absent values skipped: absent for a group without
    a value. *)
Definition mean (l : list Q) : option Q :=
  match l with
  | [] => None
  | _ => Some (fold_right Qplus 0%Q l / inject_Z (Z.of_nat (List.length l)))%Q
  end.

(** Sorting a time column puts [NaT] last. *)
Definition odate_leb (a b : option Date) : bool :=
  match a, b with
  | Some x, Some y => date_leb x y
  | None, Some _ => false
  | _, None => true
  end.

Fixpoint insert_unique (d : Date) (l : list Date) : list Date :=
  match l with
  | [] => [d]
  | x :: t => match date_compare d x with
              | Lt => d :: l
              | Eq => l
              | Gt => x :: insert_unique d t
              end
  end.

(** The distinct dates of a column in increasing order (the index of a
    pivoted frame). *)
Definition unique_sorted (l : list Date) : list Date :=
  fold_right insert_unique [] l.

Fixpoint insert_unique_str (s : string) (l : list string) : list string :=
  match l with
  | [] => [s]
  | x :: t => match String.compare s x with
              | Lt => s :: l
              | Eq => l
              | Gt => x :: insert_unique_str s t
              end
  end.

(** The distinct labels of a column in increasing order (the columns of a
    pivoted frame). *)
Definition unique_sorted_str (l : list string) : list string :=
  fold_right insert_unique_str [] l.

Definition key_eqb (a b : Date * string) : bool :=
  date_eqb (fst a) (fst b) && String.eqb (snd a) (snd b).

(** Whether some (index, column) pair occurs twice: [pivot] raises then. *)
Fixpoint has_dup (l : list (Date * string)) : bool :=
  match l with
  | [] => false
  | k :: t => existsb (key_eqb k) t || has_dup t
  end.

(** The order of a time column that may hold [NaT]: dates in calendar
    order, [NaT] after every date. *)
Definition odate_compare (a b : option Date) : comparison :=
  match a, b with
  | Some x, Some y => date_compare x y
  | Some _, None => Lt
  | None, Some _ => Gt
  | None, None => Eq
  end.

(** The order of the index of a pivoted frame: unstacking lists the
    absent index value before every date. *)
Definition pivot_index_compare (a b : option Date) : comparison :=
  match a, b with
  | Some x, Some y => date_compare x y
  | Some _, None => Gt
  | None, Some _ => Lt
  | None, None => Eq
  end.


(** Equality of (index, column) pairs whose index may be [NaT]. *)
Definition okey_eqb (a b : option Date * string) : bool :=
  match odate_compare (fst a) (fst b) with
  | Eq => String.eqb (snd a) (snd b)
  | _ => false
  end.

(** The distinct keys of a column in increasing order of [cmp]. *)
Fixpoint insert_unique_by {K : Type} (cmp : K -> K -> comparison) (d : K)
  (l : list K) : list K :=
  match l with
  | [] => [d]
  | x :: t => match cmp d x with
              | Lt => d :: l
              | Eq => l
              | Gt => x :: insert_unique_by cmp d t
              end
  end.

Definition unique_sorted_by {K : Type} (cmp : K -> K -> comparison) (l : list K)
  : list K :=
  fold_right (insert_unique_by cmp) [] l.

(** Whether some key occurs twice. *)
Fixpoint has_dup_by {K : Type} (eqb : K -> K -> bool) (l : list K) : bool :=
  match l with
  | [] => false
  | k :: t => existsb (eqb k) t || has_dup_by eqb t
  end.

(** [.str] on a column: it raises on a column with rows none of which
    holds text (pandas gives such a column a numeric type). *)
Definition str_accessor_ok {A : Type} (is_text : A -> bool) (col : list A) : bool :=
  match col with
  | [] => true
  | _ => existsb is_text col
  end.

(** ** 1. Bank of Canada policy rate *)

Module PolicyRate.

(** A row of the file as read: the [date] cell and [str(x)] of the rate
    cell. *)
Record RawRow := mkRaw { raw_date : string; raw_rate : string }.

Record Row := mkRow { date : Date; policy_rate_pct : Q }.

(** The filter of the rate column: [str(x)] with its first "." removed
    must satisfy [isdigit]. *)
Definition is_numeric_rate (x : string) : bool :=
  PyStr.isdigit (PyStr.remove_first "." x).

Section Cleaner.
Variable to_datetime : string -> option Date.
Variable to_numeric : string -> option Q.

(** The two coercions, then [dropna(subset=["date", "policy_rate_pct"])]. *)
Definition coerce (r : RawRow) : option Row :=
  match to_datetime (raw_date r), to_numeric (raw_rate r) with
  | Some d, Some v => Some (mkRow d v)
  | _, _ => None
  end.

Definition boc_daily (df : list RawRow) : list Row :=
  sort_values (fun a b => date_leb (date a) (date b))
    (keep_some coerce (filter (fun r => is_numeric_rate (raw_rate r)) df)).

End Cleaner.

(** [set_index("date").resample("M").last().reset_index()] *)
Definition boc_monthly_end (daily : list Row) : list (Date * option Q) :=
  map (fun k =>
         (month_end_of_ord k,
          option_map policy_rate_pct
            (last_opt (filter (fun r => month_ord (date r) =? k) daily))))
      (resample_bins (map (fun r => month_ord (date r)) daily)).

(** [shift(1) != rate]: the first row compares with an absent value and
    differs from it. *)
Definition rate_ne (prev : option Q) (cur : Q) : bool :=
  match prev with
  | None => true
  | Some p => negb (Qeq_bool p cur)
  end.

Definition boc_changes (daily : list Row) : list Row :=
  let rates := map policy_rate_pct daily in
  loc_mask daily (map (fun pc => rate_ne (fst pc) (snd pc)) (combine (shift1 rates) rates)).

(** The three tables the cleaner returns when it returns
    ([clean_boc_policy_rate_result] tells when it does). *)
Definition clean_boc_policy_rate (to_datetime : string -> option Date)
  (to_numeric : string -> option Q) (df : list RawRow)
  : list Row * list (Date * option Q) * list Row :=
  let daily := boc_daily to_datetime to_numeric df in
  (daily, boc_monthly_end daily, boc_changes daily).



End PolicyRate.

(** ** 2. Alberta housing starts *)

Module HousingStarts.

(** The file as read: the month-label columns, and per row the
    [Geography] cell and the cells under the month labels (absent where
    the file has none). *)
Record Frame := mkFrame {
  labels : list string;
  rows : list (option string * list (option string))
}.

Record Row := mkRow { date : option Date; starts_saar_units : option Q }.

Definition month_of_abbrev (s : string) : option Z :=
  let t := PyStr.lower s in
  if String.eqb t "jan" then Some 1 else if String.eqb t "feb" then Some 2
  else if String.eqb t "mar" then Some 3 else if String.eqb t "apr" then Some 4
  else if String.eqb t "may" then Some 5 else if String.eqb t "jun" then Some 6
  else if String.eqb t "jul" then Some 7 else if String.eqb t "aug" then Some 8
  else if String.eqb t "sep" then Some 9 else if String.eqb t "oct" then Some 10
  else if String.eqb t "nov" then Some 11 else if String.eqb t "dec" then Some 12
  else None.

(** The day field of [%d]: one or two digits from 1 to 31. *)
Definition day_of (s : string) : option Z :=
  match s with
  | String a EmptyString =>
      if PyStr.is_digit a && negb (Ascii.eqb a "0") then Some (PyStr.digit_val a) else None
  | String a (String b EmptyString) =>
      if Ascii.eqb a " " then
        (if PyStr.is_digit b && negb (Ascii.eqb b "0") then Some (PyStr.digit_val b) else None)
      else if PyStr.is_digit a && PyStr.is_digit b then
        let n := 10 * PyStr.digit_val a + PyStr.digit_val b in
        if (1 <=? n) && (n <=? 31) then Some n else None
      else None
  | _ => None
  end.

(** The fields [%b-%y-%d] reads. *)
Definition strptime_fields (s : string) : option Date :=
  match s with
  | String a (String b (String c (String "-" (String y1 (String y2 (String "-" d)))))) =>
      match month_of_abbrev (String a (String b (String c EmptyString))), day_of d with
      | Some m, Some dd =>
          if PyStr.is_digit y1 && PyStr.is_digit y2 then
            let yy := 10 * PyStr.digit_val y1 + PyStr.digit_val y2 in
            Some (mkDate (if yy <? 69 then 2000 + yy else 1900 + yy) m dd)
          else None
      | _, _ => None
      end
  | _ => None
  end.

(** [to_datetime(s, format="%b-%y-%d", errors="coerce")]: the fields must
    make a date of the calendar. *)
Definition strptime_b_y_d (s : string) : option Date :=
  match strptime_fields s with
  | Some dt => if valid_date dt then Some dt else None
  | None => None
  end.

(** [to_datetime(label + "-01", ...) + MonthEnd(0)] *)
Definition label_date (label : string) : option Date :=
  option_map (fun d => month_end (year d) (month d)) (strptime_b_y_d (label ++ "-01")).

Definition is_alberta (g : option string) : bool :=
  match g with
  | Some s => String.eqb (PyStr.lower (PyStr.strip s)) "alberta"
  | None => false
  end.

(** [melt(...).dropna(subset=["starts_saar_units"])]: the pairs whose
    cell is there. *)
Definition melted (f : Frame) : list (string * string) :=
  keep_some (fun p => option_map (fun v => (snd (fst p), v)) (snd p))
    (melt None (labels f) (filter (fun r => is_alberta (fst r)) (rows f))).

Definition starts_monthly (to_numeric : string -> option Q) (f : Frame) : list Row :=
  sort_values (fun a b => odate_leb (date a) (date b))
    (map (fun p => mkRow (label_date (fst p)) (to_numeric (snd p))) (melted f)).

(** [set_index("date").resample("Q").mean(numeric_only=True)]: rows
    without a date belong to no bin. *)
Definition dated (monthly : list Row) : list (Date * option Q) :=
  keep_some (fun r => option_map (fun d => (d, starts_saar_units r)) (date r)) monthly.

Definition starts_quarterly (monthly : list Row) : list (Date * option Q) :=
  map (fun k =>
         (quarter_end_of_ord k,
          mean (keep_some snd (filter (fun p => quarter_ord (fst p) =? k) (dated monthly)))))
      (resample_bins (map (fun p => quarter_ord (fst p)) (dated monthly))).

(** [resample] needs the earliest and the latest timestamp of the index:
    over rows none of which has a date it raises. *)
Definition resample_raises (monthly : list Row) : bool :=
  match monthly, dated monthly with
  | _ :: _, [] => true
  | _, _ => false
  end.

Definition clean_housing_starts (to_numeric : string -> option Q) (f : Frame)
  : option (list Row * list (Date * option Q)) :=
  if existsb (fun r => is_alberta (fst r)) (rows f) then
    let monthly := starts_monthly to_numeric f in
    if resample_raises monthly then None
    else Some (monthly, starts_quarterly monthly)
  else None.

End HousingStarts.

(** ** 3. International migration *)

Module Migration.

(** A row of the frame [read_csv] returns.  The reference period is a
    cell of the column [.str] is applied to: its text, or [None] for a
    cell that holds no text (a missing cell, or a number in a column
    pandas read as numbers).  The count cells are the texts
    [astype(str)] makes of them. *)
Record RawRow := mkRaw {
  reference_period : option string;
  immigrants_cell : string;
  net_emigration_cell : string;
  net_non_permanent_residents_cell : string
}.

(** A row of the wide table; the quarter of a row without a reference
    period is [NaT]. *)
Record WideRow := mkWide {
  quarter : option Date;
  immigrants : option Q;
  net_non_permanent_residents : option Q;
  net_emigration : option Q;
  total_pressure : option Q
}.

Record LongRow := mkLong {
  geo : string;
  l_quarter : option Date;
  component : string;
  value : option Q
}.

(** A quarterly period as [pd.PeriodIndex(..., freq="Q")] holds it. *)
Record Period := mkPeriod { p_year : Z; p_quarter : Z }.

(** The number of a quarter, counted like [quarter_ord]. *)
Definition period_ord (p : Period) : Z := p_year p * 4 + (p_quarter p - 1).

(** [to_timestamp("Q")]: the argument is the frequency, and with a
    quarterly frequency the timestamp is the midnight that begins the
    last day of the quarter.  It is held in nanoseconds since 1970 in 64
    bits, so it raises outside the quarters from the third of 1677
    (1677-09-30) to the first of 2262 (2262-03-31). *)
Definition to_timestamp (p : Period) : option Date :=
  let k := period_ord p in
  if (1677 * 4 + 2 <=? k) && (k <=? 2262 * 4)
  then Some (quarter_end_of_ord k) else None.

Fixpoint count_space (s : string) : nat :=
  match s with
  | String c t => if PyStr.is_space c then S (count_space t) else O
  | EmptyString => O
  end.

Fixpoint drop (n : nat) (s : string) : string :=
  match n, s with
  | S k, String _ t => drop k t
  | _, _ => s
  end.

(** A match of the pattern [Q(\d)\s+(\d{4})] at the start of [s]: its
    replacement [\2Q\1] and its length. *)
Definition match_label (s : string) : option (string * nat) :=
  match s with
  | String "Q" (String d rest) =>
      let n := count_space rest in
      match n, drop n rest with
      | S _, String y1 (String y2 (String y3 (String y4 _))) =>
          if PyStr.is_digit d && PyStr.is_digit y1 && PyStr.is_digit y2
             && PyStr.is_digit y3 && PyStr.is_digit y4
          then Some (String y1 (String y2 (String y3 (String y4
                       (String "Q" (String d EmptyString))))), (n + 6)%nat)
          else None
      | _, _ => None
      end
  | _ => None
  end.

(** [str.replace(r"Q(\d)\s+(\d{4})", r"\2Q\1", regex=True)]: every match
    replaced, from left to right; [skip] counts the characters of the
    current match still to pass. *)
Fixpoint replace_from (skip : nat) (s : string) : string :=
  match s with
  | EmptyString => EmptyString
  | String c t =>
      match skip with
      | S k => replace_from k t
      | O => match match_label s with
             | Some (r, len) => r ++ replace_from (len - 1) t
             | None => String c (replace_from 0 t)
             end
      end
  end.

Definition q_as_period (label : string) : string :=
  replace_from 0 (PyStr.strip label).

Definition is_placeholder (s : string) : bool :=
  String.eqb s ".." || String.eqb s "...".

Definition has_text (c : option string) : bool :=
  match c with
  | Some _ => true
  | None => false
  end.

(** A count column after [replace({"..": nan, "...": nan})]: when every
    cell was a placeholder the column holds floats only and pandas
    retypes it, so that [col.str] raises. *)
Definition count_column_ok (col : list string) : bool :=
  str_accessor_ok (fun s => negb (is_placeholder s)) col.

Section Cleaner.
(** [Period(s, freq="Q")] as [PeriodIndex] applies it to a text: [None]
    where it raises, [Some None] for a text read as [NaT]. *)
Variable period_of : string -> option (option Period).
Variable to_numeric : string -> option Q.

(** The quarter of one cell of the reference period: a cell without
    text stays absent through [.str.strip()] and [.str.replace] and
    becomes [NaT]; [None] where [PeriodIndex] or [to_timestamp] raises. *)
Definition quarter_of (c : option string) : option (option Date) :=
  match c with
  | None => Some None
  | Some s =>
      match period_of (q_as_period s) with
      | None => None
      | Some None => Some None
      | Some (Some p) => option_map Some (to_timestamp p)
      end
  end.

(** [replace({"..": nan, "...": nan})], then the commas removed and
    [to_numeric(errors="coerce")]. *)
Definition clean_cell (s : string) : option Q :=
  if is_placeholder s then None else to_numeric (PyStr.remove_all "," s).

Definition clean_row (r : RawRow) : option WideRow :=
  match quarter_of (reference_period r) with
  | Some q =>
      let imm := clean_cell (immigrants_cell r) in
      let emi := clean_cell (net_emigration_cell r) in
      let npr := clean_cell (net_non_permanent_residents_cell r) in
      Some (mkWide q imm npr emi (oadd imm npr))
  | None => None
  end.

(** The calls of [.str] that raise on a whole column. *)
Definition columns_ok (df : list RawRow) : bool :=
  str_accessor_ok has_text (map reference_period df)
  && count_column_ok (map immigrants_cell df)
  && count_column_ok (map net_emigration_cell df)
  && count_column_ok (map net_non_permanent_residents_cell df).

Definition mig_quarterly_wide (df : list RawRow) : option (list WideRow) :=
  if columns_ok df
  then option_map (sort_values (fun a b => odate_leb (quarter a) (quarter b)))
         (all_some (map clean_row df))
  else None.

End Cleaner.

(** The value columns of the wide table, in its column order. *)
Definition value_columns : list (string * (WideRow -> option Q)) :=
  [("immigrants", immigrants);
   ("net_non_permanent_residents", net_non_permanent_residents);
   ("net_emigration", net_emigration);
   ("total_pressure", total_pressure)].

(** [melt(id_vars="quarter", var_name="component", value_name="value")]
    with the [geo] column added. *)
Definition melt_wide (wide : list WideRow) : list LongRow :=
  flat_map (fun c => map (fun r => mkLong "Alberta" (quarter r) (fst c) (snd c r)) wide)
    value_columns.

Definition long_leb (a b : LongRow) : bool :=
  match odate_compare (l_quarter a) (l_quarter b) with
  | Lt => true
  | Gt => false
  | Eq => String.leb (component a) (component b)
  end.

Definition mig_quarterly_long (wide : list WideRow) : list LongRow :=
  sort_values long_leb (melt_wide wide).

Definition clean_international_migration
  (period_of : string -> option (option Period))
  (to_numeric : string -> option Q) (df : list RawRow)
  : option (list WideRow * list LongRow) :=
  option_map (fun wide => (wide, mig_quarterly_long wide))
    (mig_quarterly_wide period_of to_numeric df).

(** [long.pivot(index="quarter", columns="component", values="value")]
    read back as rows of the wide table: it raises when a
    (quarter, component) pair occurs twice; a pair that does not occur
    gives an absent value; the index holds the distinct quarters in
    increasing order, after [NaT] when a row has no quarter. *)
Definition pivot_cell (long : list LongRow) (q : option Date) (c : string)
  : option Q :=
  match find (fun r => okey_eqb (l_quarter r, component r) (q, c)) long with
  | Some r => value r
  | None => None
  end.

Definition pivot_long (long : list LongRow) : option (list WideRow) :=
  if has_dup_by okey_eqb (map (fun r => (l_quarter r, component r)) long) then None
  else Some (map (fun q => mkWide q
                             (pivot_cell long q "immigrants")
                             (pivot_cell long q "net_non_permanent_residents")
                             (pivot_cell long q "net_emigration")
                             (pivot_cell long q "total_pressure"))
               (unique_sorted_by pivot_index_compare (map l_quarter long))).

End Migration.

(** ** 5. Interprovincial migration *)

Module Interprov.

(** The file as read: the labels of the columns after the first one, and
    per row the first cell (the flow label) and the other cells as text
    ([astype(str)]: a cell missing in the file is the text "nan"). *)
Record Frame := mkFrame {
  labels : list string;
  rows : list (string * list string)
}.

Record LongRow := mkLong {
  flow_type : string;
  quarter_label : string;
  people : option Q;
  quarter : Date
}.

(** A row of the wide frame: its quarter and its other cells by column
    name. *)
Definition Row : Type := Date * list (string * option Q).

Record Wide := mkWide { columns : list string; wrows : list Row }.

(** [to_q_end]: [None] where it raises.  [pd.Timestamp] is taken to
    accept the years of [datetime], 1 to 9999. *)
Definition to_q_end (lbl : string) : option Date :=
  match PyStr.split (PyStr.strip lbl) with
  | [q; y] =>
      match PyStr.int (PyStr.remove_all "Q" q), PyStr.int y with
      | Some qnum, Some yr =>
          let m := qnum * 3 in
          if (1 <=? m) && (m <=? 12) && (1 <=? yr) && (yr <=? 9999)
          then Some (month_end yr m) else None
      | _, _ => None
      end
  | _ => None
  end.

(** [df.iloc[1:3]] *)
Definition iloc_1_3 {A : Type} (l : list A) : list A := firstn 2 (skipn 1 l).

Definition has_col (n : string) (w : Wide) : bool :=
  existsb (String.eqb n) (columns w).

Definition count_col (n : string) (w : Wide) : nat :=
  List.length (filter (String.eqb n) (columns w)).

(** The cell under the first column named [n], absent when there is no
    such column. *)
Definition lookup (n : string) (vals : list (string * option Q)) : option Q :=
  match find (fun p => String.eqb n (fst p)) vals with
  | Some p => snd p
  | None => None
  end.

(** [row[n]] for a column that occurs once. *)
Definition get (n : string) (r : Row) : option Q := lookup n (snd r).

(** [wide.rename(columns=...)] with a function of the name. *)
Definition rename (f : string -> string) (w : Wide) : Wide :=
  mkWide (map f (columns w))
    (map (fun r => (fst r, map (fun p => (f (fst p), snd p)) (snd r))) (wrows w)).

Definition overwrite (n : string) (v : option Q) (p : string * option Q)
  : string * option Q :=
  if String.eqb n (fst p) then (fst p, v) else p.

(** [wide[n] = ...]: the columns named [n] are overwritten; when there
    is none a column is added at the end. *)
Definition set_col (n : string) (f : Row -> option Q) (w : Wide) : Wide :=
  if has_col n w then
    mkWide (columns w)
      (map (fun r => (fst r, map (overwrite n (f r)) (snd r))) (wrows w))
  else
    mkWide (columns w ++ [n])%list
      (map (fun r => (fst r, (snd r ++ [(n, f r)])%list)) (wrows w)).

(** [long.pivot(index="quarter", columns="flow_type", values="people")] *)
Definition pivot_cell (long : list LongRow) (q : Date) (f : string) : option Q :=
  match find (fun r => key_eqb (quarter r, flow_type r) (q, f)) long with
  | Some r => people r
  | None => None
  end.

Definition pivot (long : list LongRow) : option Wide :=
  if has_dup (map (fun r => (quarter r, flow_type r)) long) then None
  else
    let cols := unique_sorted_str (map flow_type long) in
    Some (mkWide cols
            (map (fun q => (q, map (fun f => (f, pivot_cell long q f)) cols))
               (unique_sorted (map quarter long)))).

(** [str(c).strip().lower().replace(NBSP, " ")], NBSP the no-break
    space U+00A0. *)
Definition norm_col (c : string) : string :=
  PyStr.replace_char (ascii_of_nat 160) " " (PyStr.lower (PyStr.strip c)).

(** The loop that builds [rename_map]. *)
Definition canon_col (c : string) : string :=
  if PyStr.contains "in-migrants" c then "interprov_in"
  else if PyStr.contains "out-migrants" c then "interprov_out"
  else c.

Definition default_col (n : string) (w : Wide) : Wide :=
  if has_col n w then w else set_col n (fun _ => Some 0%Q) w.

(** The renamings and the two defaults. *)
Definition before_net (w0 : Wide) : Wide :=
  default_col "interprov_out"
    (default_col "interprov_in" (rename canon_col (rename norm_col w0))).

(** [wide["interprov_in"] - wide["interprov_out"]], row by row. *)
Definition net_of (r : Row) : option Q :=
  osub (get "interprov_in" r) (get "interprov_out" r).

(** The steps after [pivot].  A column name that occurs twice makes
    [wide[name]] a frame where the code needs a column: for
    "interprov_in" and "interprov_out" (the subtraction) and for
    "quarter" ([reset_index], [sort_values]) this is taken to raise. *)
Definition finish_wide (w0 : Wide) : option Wide :=
  if has_col "quarter" w0 then None
  else
    let w4 := before_net w0 in
    if negb ((count_col "interprov_in" w4 =? 1)%nat
             && (count_col "interprov_out" w4 =? 1)%nat)
    then None
    else
      let w5 := set_col "interprov_net" net_of w4 in
      if has_col "quarter" w5 then None
      else Some (mkWide (columns w5)
                   (sort_values (fun a b => date_leb (fst a) (fst b)) (wrows w5))).

Section Cleaner.
(** [float(s)]: [None] where it raises, [Some None] for a NaN. *)
Variable float_of : string -> option (option Q).

(** The [people] column: commas removed, white space stripped, then
    [astype(float)]. *)
Definition to_people (cell : string) : option (option Q) :=
  float_of (PyStr.strip (PyStr.remove_all "," cell)).

Definition melted (df : Frame) : list (string * string * string) :=
  melt "nan" (labels df) (iloc_1_3 (rows df)).

Definition long_of (df : Frame) : option (list LongRow) :=
  let m := melted df in
  match all_some (map (fun t => to_people (snd t)) m),
        all_some (map (fun t => to_q_end (snd (fst t))) m) with
  | Some ps, Some qs =>
      Some (map (fun x => mkLong (fst (fst (fst (fst x)))) (snd (fst (fst (fst x))))
                            (snd (fst x)) (snd x))
              (combine (combine m ps) qs))
  | _, _ => None
  end.

Definition clean_interprov_migration (df : Frame) : option (list LongRow * Wide) :=
  match long_of df with
  | Some long =>
      match pivot long with
      | Some w0 => option_map (fun w => (long, w)) (finish_wide w0)
      | None => None
      end
  | None => None
  end.

End Cleaner.

End Interprov.

(** ** Reference parsers

    Plain instances of the parsers pandas supplies, used to run the
    cleaners on concrete files: ISO dates, unsigned or signed decimal
    numerals, and [<year>Q<n>] periods.  pandas reads these texts the
    same way. *)

Module Sample.

Definition digit2 (a b : ascii) : option Z :=
  if PyStr.is_digit a && PyStr.is_digit b
  then Some (10 * PyStr.digit_val a + PyStr.digit_val b) else None.

Definition iso_fields (s : string) : option Date :=
  match s with
  | String y1 (String y2 (String y3 (String y4 (String "-"
      (String m1 (String m2 (String "-" (String d1 (String d2 EmptyString))))))))) =>
      match digit2 y1 y2, digit2 y3 y4, digit2 m1 m2, digit2 d1 d2 with
      | Some a, Some b, Some m, Some d => Some (mkDate (100 * a + b) m d)
      | _, _, _, _ => None
      end
  | _ => None
  end.

(** [YYYY-MM-DD], a date of the calendar. *)
Definition to_datetime (s : string) : option Date :=
  match iso_fields s with
  | Some dt => if valid_date dt then Some dt else None
  | None => None
  end.

Fixpoint before_dot (s : string) : string :=
  match s with
  | EmptyString => EmptyString
  | String c t => if Ascii.eqb c "." then EmptyString else String c (before_dot t)
  end.

Fixpoint after_dot (s : string) : string :=
  match s with
  | EmptyString => EmptyString
  | String c t => if Ascii.eqb c "." then t else after_dot t
  end.

(** Digits with at most one decimal point and at least one digit. *)
Definition unsigned_decimal (s : string) : option Q :=
  let i := before_dot s in
  let f := after_dot s in
  if PyStr.all_chars PyStr.is_digit i && PyStr.all_chars PyStr.is_digit f
     && negb (String.eqb (i ++ f) EmptyString)
  then Some (Qred (Qmake (PyStr.digits_val 0 (i ++ f))
                         (Z.to_pos (10 ^ Z.of_nat (String.length f)))))
  else None.

Definition to_numeric (s : string) : option Q :=
  match s with
  | String "-" t => option_map Qopp (unsigned_decimal t)
  | _ => unsigned_decimal s
  end.

(** [float]: the text "nan" is a NaN, other texts are numerals. *)
Definition float_of (s : string) : option (option Q) :=
  if String.eqb s "nan" then Some None else option_map Some (to_numeric s).

(** [<year>Q<n>] with four digits and n from 1 to 4; the text "NaT"
    is read as [NaT]. *)
Definition period_of (s : string) : option (option Migration.Period) :=
  if String.eqb s "NaT" then Some None
  else
    match s with
    | String y1 (String y2 (String y3 (String y4 (String "Q" (String q EmptyString))))) =>
        match digit2 y1 y2, digit2 y3 y4 with
        | Some a, Some b =>
            let n := PyStr.digit_val q in
            if PyStr.is_digit q && (1 <=? n) && (n <=? 4)
            then Some (Some (Migration.mkPeriod (100 * a + b) n)) else None
        | _, _ => None
        end
    | _ => None
    end.

End Sample.

(** ** The specification's words

    Definitions that follow the sentences of the specification, to be
    compared with the cleaners above. *)

Module PolicyRateSpec.

Import PolicyRate.

(** Change events: the first row, then every row whose rate differs from
    the rate of the row just before it. *)
Fixpoint changes_after (prev : Q) (l : list Row) : list Row :=
  match l with
  | [] => []
  | r :: t =>
      if Qeq_bool prev (policy_rate_pct r) then changes_after (policy_rate_pct r) t
      else r :: changes_after (policy_rate_pct r) t
  end.

Definition change_events (daily : list Row) : list Row :=
  match daily with
  | [] => []
  | r :: t => r :: changes_after (policy_rate_pct r) t
  end.

(** The number of adjacent rows whose rates differ. *)
Fixpoint adjacent_differences (l : list Q) : nat :=
  match l with
  | a :: t =>
      match t with
      | b :: _ => ((if Qeq_bool a b then 0 else 1) + adjacent_differences t)%nat
      | [] => 0%nat
      end
  | [] => 0%nat
  end.

(** The rows [boc_changes] keeps when the row before the first one
    held [prev] (absent for the first row of the table). *)
Fixpoint changes_from (prev : option Q) (l : list Row) : list Row :=
  match l with
  | [] => []
  | r :: t =>
      if rate_ne prev (policy_rate_pct r)
      then r :: changes_from (Some (policy_rate_pct r)) t
      else changes_from (Some (policy_rate_pct r)) t
  end.





(** What one row of the file contributes to the daily series. *)
Definition contribution (to_datetime : string -> option Date)
  (to_numeric : string -> option Q) (r : RawRow) : option Row :=
  if is_numeric_rate (raw_rate r) then coerce to_datetime to_numeric r else None.

(** The last observation on or before a date. *)
Definition asof (daily : list Row) (d : Date) : option Row :=
  last_opt (filter (fun r => date_leb (date r) d) daily).

(** The calendar months from the month of the first row to the month of
    the last row. *)
Definition month_span (daily : list Row) : list Z :=
  match daily with
  | [] => []
  | r :: t => zrange (month_ord (date r)) (month_ord (date (last t r)))
  end.

Definition observed_in_month (daily : list Row) (k : Z) : bool :=
  existsb (fun r => month_ord (date r) =? k) daily.

End PolicyRateSpec.

Module StartsSpec.

Import HousingStarts.

(** The (month label, cell) pairs of the Alberta rows. *)
Definition cells (f : Frame) : list (string * option string) :=
  map (fun t => (snd (fst t), snd t))
    (melt None (labels f) (filter (fun r => is_alberta (fst r)) (rows f))).

(** What one pair contributes to the monthly table: nothing when the
    cell is missing, otherwise one row, whatever the coercion gives. *)
Definition contribution (to_numeric : string -> option Q)
  (p : string * option string) : list Row :=
  match snd p with
  | None => []
  | Some v => [mkRow (label_date (fst p)) (to_numeric v)]
  end.

(** Whether a date falls in quarter [q] (1 to 4) of year [y]. *)
Definition in_quarter (y q : Z) (d : Date) : bool :=
  (year d =? y) && (3 * q - 2 <=? month d) && (month d <=? 3 * q).

(** The monthly values that are present and whose month falls in the
    quarter. *)
Definition quarter_values (monthly : list Row) (y q : Z) : list Q :=
  keep_some (fun r => match date r with
                      | Some d => if in_quarter y q d then starts_saar_units r else None
                      | None => None
                      end) monthly.

(** The quarters from the earliest to the latest one that holds a dated
    monthly row, numbered [4 * year + (quarter - 1)]. *)
Definition quarter_span (monthly : list Row) : list Z :=
  resample_bins (map quarter_ord (keep_some date monthly)).

End StartsSpec.

Module MigrationSpec.

Import Migration.

(** Two rows of the file that differ at most in their net-emigration
    cell. *)
Definition agree_but_emigration (a b : RawRow) : Prop :=
  reference_period a = reference_period b
  /\ immigrants_cell a = immigrants_cell b
  /\ net_non_permanent_residents_cell a = net_non_permanent_residents_cell b.

(** A wide row without its net-emigration column. *)
Definition pressure_view (r : WideRow)
  : option Date * option Q * option Q * option Q :=
  (quarter r, immigrants r, net_non_permanent_residents r, total_pressure r).



(** A column of the file has rows and none of them holds what [.str]
    needs. *)
Definition no_text {A : Type} (is_text : A -> bool) (col : list A) : Prop :=
  col <> [] /\ forall c, In c col -> is_text c = false.

(** The reference period [s] cannot be dated: it is no quarterly period,
    or its quarter lies outside the range of timestamps. *)
Definition undatable (period_of : string -> option (option Period)) (s : string) : Prop :=
  period_of (q_as_period s) = None
  \/ exists p, period_of (q_as_period s) = Some (Some p) /\ to_timestamp p = None.

End MigrationSpec.

Module InterprovSpec.

Import Interprov.

(** The flow labels of the data rows at positions 1 and 2, counted from
    0 (the second and third data rows of the file). *)
Definition consumed_flows (df : Frame) : list string :=
  map fst (firstn 2 (skipn 1 (rows df))).

(** A frame is well formed when every row holds one cell per column. *)
Definition well_formed (w : Wide) : Prop :=
  forall r, In r (wrows w) -> map fst (snd r) = columns w.


(** How a row of the long table comes from a melted cell. *)
Definition long_of_cell (float_of : string -> option (option Q))
  (t : string * string * string) (r : LongRow) : Prop :=
  flow_type r = fst (fst t) /\ quarter_label r = snd (fst t)
  /\ to_people float_of (snd t) = Some (people r)
  /\ to_q_end (snd (fst t)) = Some (quarter r).

End InterprovSpec.

(** ** Figure builders: the tables and tick labels they plot

    Of [ab_housing.plotting] and [scripts/make_figures.py] the
    computations on data are embedded: the labels and positions of the
    quarter ticks, the quarter-end policy rate and the table behind the
    second figure.  What is handed to matplotlib is the result. *)

Module PyFmt.

Definition digit_char (n : Z) : ascii := ascii_of_nat (48 + Z.to_nat n).

Fixpoint show_digits (fuel : nat) (n : Z) : string :=
  match fuel with
  | O => EmptyString
  | S f =>
      if n <? 10 then String (digit_char n) EmptyString
      else show_digits f (n / 10) ++ String (digit_char (n mod 10)) EmptyString
  end.

(** An [int] inside an f-string: its decimal digits, after a minus sign
    when it is negative. *)
Definition show_int (n : Z) : string :=
  if n <? 0 then String "-" (show_digits (S (Z.to_nat (- n))) (- n))
  else show_digits (S (Z.to_nat n)) n.

End PyFmt.

Module Plotting.

(** One step of the loop of [_format_quarter_labels]; the fields of a
    [NaT] are NaN and print as "nan". *)
Definition format_quarter_label (d : option Date) : string :=
  match d with
  | Some d =>
      let q_num := (month d - 1) / 3 + 1 in
      PyFmt.show_int (year d) ++ " Q" ++ PyFmt.show_int q_num
  | None => "nan Qnan"
  end.

Definition format_quarter_labels (dt_series : list (option Date)) : list string :=
  map format_quarter_label dt_series.

Fixpoint range_from (fuel i stop step : nat) : list nat :=
  match fuel with
  | O => []
  | S f => if (i <? stop)%nat then i :: range_from f (i + step)%nat stop step else []
  end.

(** [range(0, stop, step)] for a positive step. *)
Definition range_step (stop step : nat) : list nat := range_from stop 0%nat stop step.

(** The indices [_apply_quarter_ticks] keeps; [None] where the floor
    division by [max_ticks] raises. *)
Definition tick_indices (n : nat) (max_ticks : Z) : option (list nat) :=
  if Z.of_nat n <=? max_ticks then Some (seq 0 n)
  else if max_ticks =? 0 then None
  else Some (range_step n (Z.to_nat (Z.max 1 (Z.of_nat n / max_ticks)))).

(** [_apply_quarter_ticks]: the tick positions and the tick labels set
    on the axis. *)
Definition apply_quarter_ticks (x_dates : list (option Date)) (max_ticks : Z)
  : option (list (option Date) * list string) :=
  match tick_indices (List.length x_dates) max_ticks with
  | Some idxs =>
      let ticks := map (fun i => nth i x_dates None) idxs in
      Some (ticks, format_quarter_labels ticks)
  | None => None
  end.

(** [merge(on="quarter", how="inner")]: the pairs of a left and a right
    row with the same quarter, in the order of the left rows. *)
Definition merge_inner {A B : Type} (l : list (Date * A)) (r : list (Date * B))
  : list (Date * A * B) :=
  flat_map (fun x => map (fun y => (fst x, snd x, snd y))
                       (filter (fun y => date_eqb (fst x) (fst y)) r)) l.

(** The table [figure_starts_vs_rate] plots: quarter, starts, rate. *)
Definition starts_vs_rate (starts_q rate_q : list (Date * option Q))
  : list (Date * option Q * option Q) :=
  sort_values (fun a b => date_leb (fst (fst a)) (fst (fst b))) (merge_inner starts_q rate_q).

End Plotting.

Module MakeFigures.

(** [boc_daily.set_index("date").resample("Q").last()[["policy_rate_pct"]]]
    with the date column renamed to [quarter]. *)
Definition rate_q (boc_daily : list PolicyRate.Row) : list (Date * option Q) :=
  map (fun k =>
         (quarter_end_of_ord k,
          option_map PolicyRate.policy_rate_pct
            (last_opt (filter (fun r => quarter_ord (PolicyRate.date r) =? k) boc_daily))))
      (resample_bins (map (fun r => quarter_ord (PolicyRate.date r)) boc_daily)).

(** The table of the second figure as [main] builds it from the
    quarterly starts and the daily policy rate. *)
Definition figure2_table (starts_q : list (Date * option Q))
  (boc_daily : list PolicyRate.Row) : list (Date * option Q * option Q) :=
  Plotting.starts_vs_rate starts_q (rate_q boc_daily).

End MakeFigures.

(** ** More of the specification's words *)

Module ExtraSpec.

(** No two neighbouring rows carry the same rate, starting from the rate
    [p] before the first row. *)
Fixpoint rates_alternate (p : Q) (l : list PolicyRate.Row) : Prop :=
  match l with
  | [] => True
  | c :: t => Qeq_bool p (PolicyRate.policy_rate_pct c) = false
              /\ rates_alternate (PolicyRate.policy_rate_pct c) t
  end.

Definition neighbours_differ (l : list PolicyRate.Row) : Prop :=
  match l with
  | [] => True
  | c :: t => rates_alternate (PolicyRate.policy_rate_pct c) t
  end.

(** The rate in force after the rows [l], [p] when there is no row. *)
Definition last_rate (p : option Q) (l : list PolicyRate.Row) : option Q :=
  match last_opt l with
  | Some r => Some (PolicyRate.policy_rate_pct r)
  | None => p
  end.

(** The label a quarter is written with: year, blank, Q, quarter. *)
Definition quarter_name (y q : Z) : string :=
  PyFmt.show_int y ++ " Q" ++ PyFmt.show_int q.

(** The label of a quarter column as the files carry it: Q, quarter,
    blank, year. *)
Definition quarter_column (q y : Z) : string :=
  "Q" ++ PyFmt.show_int q ++ " " ++ PyFmt.show_int y.

End ExtraSpec.

(** * Facts about dates *)

Ltac date_cases :=
  unfold date_eqb, date_leb, date_compare in *; simpl in *;
  repeat match goal with
         | |- context [(?x ?= ?y)%Z] => destruct (Z.compare_spec x y)
         | H : context [(?x ?= ?y)%Z] |- _ => destruct (Z.compare_spec x y)
         end;
  subst; simpl in *; try congruence; try lia.

Lemma date_compare_eq (a b : Date) : date_compare a b = Eq -> a = b.
Proof. destruct a, b; date_cases. Qed.

Lemma date_compare_refl (a : Date) : date_compare a a = Eq.
Proof. destruct a; date_cases. Qed.


Lemma date_eqb_eq (a b : Date) : date_eqb a b = true <-> a = b.
Proof.
  split.
  - unfold date_eqb. destruct (date_compare a b) eqn:E; try discriminate.
    intros _. now apply date_compare_eq.
  - intros ->. unfold date_eqb. now rewrite date_compare_refl.
Qed.

Lemma date_leb_refl (a : Date) : date_leb a a = true.
Proof. unfold date_leb. now rewrite date_compare_refl. Qed.

Lemma date_leb_total (a b : Date) : date_leb a b = true \/ date_leb b a = true.
Proof. destruct a, b; date_cases; auto. Qed.

Lemma date_leb_trans (a b c : Date) :
  date_leb a b = true -> date_leb b c = true -> date_leb a c = true.
Proof. destruct a, b, c; date_cases. Qed.

Lemma date_leb_antisym (a b : Date) :
  date_leb a b = true -> date_leb b a = true -> a = b.
Proof. destruct a, b; date_cases. Qed.

Lemma date_lt_irrefl (a : Date) : ~ date_lt a a.
Proof. unfold date_lt. now rewrite date_compare_refl. Qed.

Lemma date_lt_trans (a b c : Date) : date_lt a b -> date_lt b c -> date_lt a c.
Proof. unfold date_lt. destruct a, b, c; date_cases. Qed.

Lemma date_lt_asym (a b : Date) : date_lt a b -> date_lt b a -> False.
Proof. intros H1 H2. exact (date_lt_irrefl a (date_lt_trans _ _ _ H1 H2)). Qed.

Lemma date_leb_lt (a b : Date) : date_leb a b = true -> a <> b -> date_lt a b.
Proof.
  unfold date_leb, date_lt. destruct (date_compare a b) eqn:E; try discriminate; auto.
  intros _ N. now apply date_compare_eq in E.
Qed.

(** * Facts about frames *)

Section FrameFacts.
Context {A : Type}.
Variable leb : A -> A -> bool.

Lemma insert_by_perm (x : A) (l : list A) : Permutation (insert_by leb x l) (x :: l).
Proof.
  induction l as [|y t IH]; simpl; auto.
  destruct (leb x y); auto.
  rewrite IH. apply perm_swap.
Qed.

Lemma sort_values_perm (l : list A) : Permutation (sort_values leb l) l.
Proof.
  induction l as [|x t IH]; simpl; auto.
  rewrite insert_by_perm. now constructor.
Qed.

Lemma sort_values_In (l : list A) (x : A) : In x (sort_values leb l) <-> In x l.
Proof.
  split; apply Permutation_in; [|symmetry]; apply sort_values_perm.
Qed.

Hypothesis leb_total : forall a b, leb a b = true \/ leb b a = true.
Hypothesis leb_trans : forall a b c, leb a b = true -> leb b c = true -> leb a c = true.

Lemma insert_by_sorted (x : A) (l : list A) :
  StronglySorted (fun a b => leb a b = true) l ->
  StronglySorted (fun a b => leb a b = true) (insert_by leb x l).
Proof.
  induction 1 as [|y t St IH Hy]; simpl.
  - repeat constructor.
  - destruct (leb x y) eqn:E.
    + constructor; [now constructor|].
      constructor; auto.
      rewrite Forall_forall in *. intros z Hz. eapply leb_trans; eauto.
    + constructor; auto.
      rewrite Forall_forall in *. intros z Hz.
      apply (Permutation_in _ (insert_by_perm x t)) in Hz.
      destruct Hz as [<-|Hz]; auto.
      destruct (leb_total x y) as [T|T]; congruence.
Qed.

Lemma sort_values_sorted (l : list A) :
  StronglySorted (fun a b => leb a b = true) (sort_values leb l).
Proof.
  induction l as [|x t IH]; simpl; [constructor|].
  now apply insert_by_sorted.
Qed.

End FrameFacts.

Lemma insert_by_map {A B : Type} (g : A -> B) (leb : A -> A -> bool)
  (leb' : B -> B -> bool) (x : A) (l : list A) :
  (forall a b, leb' (g a) (g b) = leb a b) ->
  map g (insert_by leb x l) = insert_by leb' (g x) (map g l).
Proof.
  intros H. induction l as [|y t IH]; simpl; auto.
  rewrite H. destruct (leb x y); simpl; congruence.
Qed.

Lemma sort_values_map {A B : Type} (g : A -> B) (leb : A -> A -> bool)
  (leb' : B -> B -> bool) (l : list A) :
  (forall a b, leb' (g a) (g b) = leb a b) ->
  map g (sort_values leb l) = sort_values leb' (map g l).
Proof.
  intros H. induction l as [|x t IH]; simpl; auto.
  rewrite (insert_by_map g leb leb') by assumption. now rewrite IH.
Qed.

Lemma keep_some_In {A B : Type} (f : A -> option B) (l : list A) (y : B) :
  In y (keep_some f l) <-> exists x, In x l /\ f x = Some y.
Proof.
  induction l as [|a t IH]; simpl.
  - split; [tauto | intros [x [[] _]]].
  - destruct (f a) eqn:E; simpl; rewrite IH; split.
    + intros [<-|[x [Hx Hf]]]; eauto.
    + intros [x [[<-|Hx] Hf]]; [left; congruence | eauto].
    + intros [x [Hx Hf]]; eauto.
    + intros [x [[<-|Hx] Hf]]; [congruence | eauto].
Qed.

Lemma all_some_Forall2 {A B : Type} (f : A -> option B) (l : list A) (l' : list B) :
  all_some (map f l) = Some l' -> Forall2 (fun x y => f x = Some y) l l'.
Proof.
  revert l'. induction l as [|x t IH]; simpl; intros l' H.
  - injection H as <-. constructor.
  - destruct (f x) as [y|] eqn:E; [|discriminate].
    destruct (all_some (map f t)) as [u|]; [|discriminate].
    injection H as <-. constructor; auto.
Qed.

Lemma Forall2_In_r {A B : Type} (R : A -> B -> Prop) (l : list A) (l' : list B) (y : B) :
  Forall2 R l l' -> In y l' -> exists x, In x l /\ R x y.
Proof.
  induction 1 as [|a b t u Hab _ IH]; simpl; [tauto|].
  intros [<-|I]; [eauto|]. destruct (IH I) as [x [Ix Rx]]. eauto.
Qed.

(** ** Pivot keys *)

Lemma key_eqb_eq (a b : Date * string) : key_eqb a b = true <-> a = b.
Proof.
  destruct a as [d s], b as [d' s']. unfold key_eqb. simpl.
  rewrite andb_true_iff, date_eqb_eq, String.eqb_eq.
  split; [intros [-> ->]; reflexivity | intros E; injection E; auto].
Qed.

Lemma has_dup_NoDup (l : list (Date * string)) : has_dup l = false <-> NoDup l.
Proof.
  induction l as [|k t IH]; simpl.
  - split; [constructor | reflexivity].
  - rewrite orb_false_iff, IH, NoDup_cons_iff. split; intros [H1 H2]; split; auto.
    + intros I. assert (X : existsb (key_eqb k) t = true).
      { apply existsb_exists. exists k. split; [exact I | now apply key_eqb_eq]. }
      congruence.
    + destruct (existsb (key_eqb k) t) eqn:E; [|reflexivity].
      apply existsb_exists in E. destruct E as [x [Ix Ex]].
      apply key_eqb_eq in Ex. subst x. contradiction.
Qed.

Lemma find_unique {A : Type} (key : A -> Date * string) (l : list A) (r0 : A) :
  NoDup (map key l) -> In r0 l ->
  find (fun r => key_eqb (key r) (key r0)) l = Some r0.
Proof.
  induction l as [|x t IH]; simpl; [tauto|].
  intros N I. apply NoDup_cons_iff in N. destruct N as [Nx Nt].
  destruct (key_eqb (key x) (key r0)) eqn:E.
  - apply key_eqb_eq in E. destruct I as [->|I]; [reflexivity|].
    elim Nx. rewrite E. now apply in_map.
  - destruct I as [->|I]; [|now apply IH].
    assert (X : key_eqb (key r0) (key r0) = true) by now apply key_eqb_eq.
    congruence.
Qed.

(** ** The sorted index of a pivoted frame *)

Lemma insert_unique_In (d x : Date) (l : list Date) :
  In x (insert_unique d l) <-> x = d \/ In x l.
Proof.
  induction l as [|y t IH]; simpl; [intuition|].
  destruct (date_compare d y) eqn:E; simpl.
  - apply date_compare_eq in E. subst. intuition.
  - intuition.
  - rewrite IH. intuition.
Qed.

Lemma unique_sorted_In (x : Date) (l : list Date) :
  In x (unique_sorted l) <-> In x l.
Proof.
  induction l as [|d t IH]; simpl; [tauto|].
  rewrite insert_unique_In, IH. intuition.
Qed.




(** Two strictly increasing lists with the same elements are equal. *)
Lemma strict_sorted_ext (l1 l2 : list Date) :
  StronglySorted date_lt l1 -> StronglySorted date_lt l2 ->
  (forall x, In x l1 <-> In x l2) -> l1 = l2.
Proof.
  intros S1. revert l2. induction S1 as [|a t1 St1 IH Ha]; intros l2 S2 H.
  - destruct l2 as [|b t2]; [reflexivity|]. elim (proj2 (H b)). now left.
  - destruct S2 as [|b t2 St2 Hb]; [elim (proj1 (H a)); now left|].
    rewrite Forall_forall in Ha, Hb.
    assert (E : a = b).
    { destruct (proj1 (H a) (or_introl eq_refl)) as [E|Ia]; [now symmetry|].
      destruct (proj2 (H b) (or_introl eq_refl)) as [E|Ib]; [assumption|].
      elim (date_lt_asym a b); auto. }
    subst b. f_equal. apply IH; [assumption|].
    intros x. split; intros I.
    + destruct (proj1 (H x) (or_intror I)) as [E|I2]; [|assumption].
      subst x. elim (date_lt_irrefl a). auto.
    + destruct (proj2 (H x) (or_intror I)) as [E|I1]; [|assumption].
      subst x. elim (date_lt_irrefl a). auto.
Qed.

Lemma sorted_NoDup_strict (l : list Date) :
  StronglySorted (fun a b => date_leb a b = true) l -> NoDup l ->
  StronglySorted date_lt l.
Proof.
  induction 1 as [|x t St IH Hx]; intros N; constructor.
  - apply IH. now inversion N.
  - apply NoDup_cons_iff in N. destruct N as [Nx _].
    rewrite Forall_forall in *. intros y Iy.
    apply date_leb_lt; [auto | congruence].
Qed.

Lemma StronglySorted_map {A B : Type} (R : A -> A -> Prop) (R' : B -> B -> Prop)
  (g : A -> B) (l : list A) :
  (forall a b, In a l -> In b l -> R a b -> R' (g a) (g b)) ->
  StronglySorted R l -> StronglySorted R' (map g l).
Proof.
  intros H S. induction S as [|x t St IH Hx]; simpl; constructor.
  - apply IH. intros a b Ia Ib. apply H; now right.
  - rewrite Forall_forall in *. intros y Iy.
    apply in_map_iff in Iy. destruct Iy as [z [<- Iz]].
    apply H; [now left | now right | now apply Hx].
Qed.

Lemma StronglySorted_keys {A : Type} (R : A -> A -> Prop) (R' : A -> A -> Prop)
  (l : list A) :
  (forall a b, In a l -> In b l -> R a b -> R' a b) ->
  StronglySorted R l -> StronglySorted R' l.
Proof.
  intros H S. rewrite <- (map_id l). now apply (StronglySorted_map R R' (fun x => x)).
Qed.




Lemma In_combine_seq {A : Type} (l : list A) (i : nat) (x : A) (start : nat) :
  nth_error l i = Some x -> In ((start + i)%nat, x) (combine (seq start (List.length l)) l).
Proof.
  revert i start. induction l as [|y t IH]; intros [|i] start; simpl; try discriminate.
  - intros E. injection E as ->. left. f_equal. lia.
  - intros E. right. replace (start + S i)%nat with (S start + i)%nat by lia.
    now apply IH.
Qed.

Lemma insert_unique_str_In (s x : string) (l : list string) :
  In x (insert_unique_str s l) <-> x = s \/ In x l.
Proof.
  induction l as [|y t IH]; simpl; [intuition|].
  destruct (String.compare s y) eqn:E; simpl.
  - apply String.compare_eq_iff in E. subst. intuition.
  - intuition.
  - rewrite IH. intuition.
Qed.

Lemma unique_sorted_str_In (x : string) (l : list string) :
  In x (unique_sorted_str l) <-> In x l.
Proof.
  induction l as [|d t IH]; simpl; [tauto|].
  rewrite insert_unique_str_In, IH. intuition.
Qed.

(** ** Keys ordered by a comparison *)

Section OrderedKeys.
Context {K : Type}.
Variable cmp : K -> K -> comparison.
Hypothesis cmp_eq : forall a b, cmp a b = Eq -> a = b.
Hypothesis cmp_refl : forall a, cmp a a = Eq.
Hypothesis cmp_antisym : forall a b, cmp b a = CompOpp (cmp a b).
Hypothesis cmp_trans : forall a b c, cmp a b = Lt -> cmp b c = Lt -> cmp a c = Lt.









End OrderedKeys.

Section EqualKeys.
Context {K : Type}.
Variable eqb : K -> K -> bool.
Hypothesis eqb_eq : forall a b, eqb a b = true <-> a = b.



End EqualKeys.

(** ** Time columns that may hold [NaT] *)



Lemma odate_leb_total (a b : option Date) : odate_leb a b = true \/ odate_leb b a = true.
Proof.
  destruct a, b; simpl; auto. apply date_leb_total.
Qed.

Lemma odate_leb_trans (a b c : option Date) :
  odate_leb a b = true -> odate_leb b c = true -> odate_leb a c = true.
Proof.
  destruct a, b, c; simpl; try discriminate; auto. apply date_leb_trans.
Qed.










(** ** Columns converted cell by cell, and melted frames *)

Lemma all_some_None {A B : Type} (f : A -> option B) (l : list A) :
  all_some (map f l) = None <-> exists x, In x l /\ f x = None.
Proof.
  induction l as [|a t IH]; simpl.
  - split; [discriminate | intros [x [[] _]]].
  - destruct (f a) as [y|] eqn:E.
    + destruct (all_some (map f t)) as [u|]; simpl.
      * split; [discriminate|]. intros [x [[<-|I] N]]; [congruence|].
        assert (X : Some u = None) by (apply (proj2 IH); eauto).
        discriminate X.
      * split; [|reflexivity]. intros _.
        destruct (proj1 IH eq_refl) as [x [I N]]. eauto.
    + split; [|reflexivity]. intros _. exists a. auto.
Qed.

Lemma Forall2_In_l {A B : Type} (R : A -> B -> Prop) (l : list A) (l' : list B) (x : A) :
  Forall2 R l l' -> In x l -> exists y, In y l' /\ R x y.
Proof.
  induction 1 as [|a b t u Hab _ IH]; simpl; [tauto|].
  intros [<-|I]; [eauto|]. destruct (IH I) as [y [Iy Ry]]. eauto.
Qed.

Lemma Forall2_map_eq {A B C : Type} (f : A -> C) (g : B -> C) (l : list A) (l' : list B) :
  Forall2 (fun x y => f x = g y) l l' -> map f l = map g l'.
Proof. induction 1; simpl; congruence. Qed.

Lemma melt_length {K C : Type} (dflt : C) (labels : list string) (rows : list (K * list C)) :
  List.length (melt dflt labels rows) = (List.length labels * List.length rows)%nat.
Proof.
  unfold melt. generalize 0%nat. induction labels as [|l t IH]; intros n; [reflexivity|].
  cbn [List.length seq combine flat_map]. rewrite length_app, length_map, IH. lia.
Qed.

Lemma melt_In {K C : Type} (dflt : C) (labels : list string) (rows : list (K * list C))
  (j : nat) (lbl : string) (r : K * list C) :
  nth_error labels j = Some lbl -> In r rows ->
  In (fst r, lbl, nth j (snd r) dflt) (melt dflt labels rows).
Proof.
  intros E I. unfold melt. apply in_flat_map. exists (j, lbl). split.
  - exact (In_combine_seq labels j lbl 0 E).
  - apply in_map_iff. exists r. auto.
Qed.


Lemma melt_keys {K C : Type} (dflt : C) (labels : list string) (rows : list (K * list C)) :
  map (fun t => fst (fst t)) (melt dflt labels rows)
  = flat_map (fun _ => map fst rows) labels.
Proof.
  unfold melt. generalize 0%nat. induction labels as [|l t IH]; intros n; [reflexivity|].
  cbn [List.length seq combine flat_map]. rewrite map_app, map_map, IH. reflexivity.
Qed.
(** * 1. Policy rate: facts *)

Module PolicyRateFacts.

Import PolicyRate.

Lemma boc_daily_sorted (to_datetime : string -> option Date)
  (to_numeric : string -> option Q) (df : list RawRow) :
  StronglySorted (fun a b => date_leb (date a) (date b) = true)
    (boc_daily to_datetime to_numeric df).
Proof.
  apply sort_values_sorted.
  - intros a b. apply date_leb_total.
  - intros a b c. apply date_leb_trans.
Qed.

Lemma loc_mask_from (prev : option Q) (l : list Row) :
  loc_mask l
    (map (fun pc => rate_ne (fst pc) (snd pc))
       (combine (firstn (List.length (map policy_rate_pct l))
                   (prev :: map Some (map policy_rate_pct l)))
          (map policy_rate_pct l)))
  = PolicyRateSpec.changes_from prev l.
Proof.
  revert prev. induction l as [|r t IH]; intros prev; [reflexivity|].
  unfold loc_mask in *. simpl.
  destruct (rate_ne prev (policy_rate_pct r)); simpl; now rewrite IH.
Qed.

Lemma changes_from_after (p : Q) (l : list Row) :
  PolicyRateSpec.changes_from (Some p) l = PolicyRateSpec.changes_after p l.
Proof.
  revert p. induction l as [|r t IH]; intros p; [reflexivity|].
  simpl. destruct (Qeq_bool p (policy_rate_pct r)); simpl; now rewrite IH.
Qed.

Lemma boc_changes_events (daily : list Row) :
  boc_changes daily = PolicyRateSpec.change_events daily.
Proof.
  unfold boc_changes, shift1. rewrite loc_mask_from.
  destruct daily as [|r t]; [reflexivity|].
  simpl. now rewrite changes_from_after.
Qed.

Lemma changes_after_length (p : Q) (l : list Row) :
  List.length (PolicyRateSpec.changes_after p l)
  = PolicyRateSpec.adjacent_differences (p :: map policy_rate_pct l).
Proof.
  revert p. induction l as [|r t IH]; intros p; [reflexivity|].
  cbn [PolicyRateSpec.changes_after map PolicyRateSpec.adjacent_differences].
  destruct (Qeq_bool p (policy_rate_pct r)); cbn [List.length]; now rewrite IH.
Qed.

(** C2. The daily series is sorted by non-decreasing date; the
    change-events table holds the first daily row and every daily row
    whose rate differs from the rate of the row before it, so it has one
    row more than there are adjacent rate differences; on the three rows
    of the specification's example it is the rows of 2024-01-01 at 5 and
    of 2024-01-03 at 5.25. *)
Theorem policy_rate_sorted_and_change_events :
  forall (to_datetime : string -> option Date) (to_numeric : string -> option Q)
         (df : list RawRow),
    let out := clean_boc_policy_rate to_datetime to_numeric df in
    let daily := fst (fst out) in
    let changes := snd out in
    StronglySorted (fun a b => date_leb (date a) (date b) = true) daily
    /\ changes = PolicyRateSpec.change_events daily
    /\ List.length changes
       = match daily with
         | [] => 0%nat
         | _ => S (PolicyRateSpec.adjacent_differences (map policy_rate_pct daily))
         end
    /\ snd (clean_boc_policy_rate Sample.to_datetime Sample.to_numeric
              [mkRaw "2024-01-01" "5.00"; mkRaw "2024-01-02" "5.00";
               mkRaw "2024-01-03" "5.25"])
       = [mkRow (mkDate 2024 1 1) 5; mkRow (mkDate 2024 1 3) (Qred 5.25)].
Proof.
  intros td tn df. cbv zeta. unfold clean_boc_policy_rate. cbn [fst snd].
  split; [apply boc_daily_sorted|].
  split; [apply boc_changes_events|].
  split.
  - rewrite boc_changes_events.
    destruct (boc_daily td tn df) as [|r t]; [reflexivity|].
    cbn [PolicyRateSpec.change_events List.length]. now rewrite changes_after_length.
  - vm_compute. reflexivity.
Qed.


(** ** Which rows are retained *)

Lemma append_nil_r (s : string) : s ++ EmptyString = s.
Proof. induction s as [|c t IH]; simpl; congruence. Qed.







Section Numerals.
Variable p : ascii -> bool.
Hypothesis point_no_digit : p "."%char = false.



End Numerals.














(** ** The month-end table *)

Lemma month_ord_mono (a b : Date) :
  valid_date a = true -> valid_date b = true ->
  date_leb a b = true -> month_ord a <= month_ord b.
Proof.
  unfold valid_date, month_ord. destruct a as [ya ma da], b as [yb mb db].
  intros Va Vb. cbn [year month day] in *.
  repeat (apply andb_prop in Va; destruct Va as [Va ?]).
  repeat (apply andb_prop in Vb; destruct Vb as [Vb ?]).
  date_cases.
Qed.

Lemma date_leb_month_end (d : Date) (k : Z) :
  valid_date d = true ->
  date_leb d (month_end_of_ord k) = (month_ord d <=? k).
Proof.
  unfold valid_date, month_ord, month_end_of_ord, month_end.
  destruct d as [y m dd]. cbn [year month day]. intros V.
  repeat (apply andb_prop in V; destruct V as [V ?]).
  pose proof (Z.div_mod k 12 ltac:(lia)) as E.
  pose proof (Z.mod_pos_bound k 12 ltac:(lia)) as B.
  rewrite (Z.mul_comm 12) in E.
  remember (k / 12) as q eqn:Eq. remember (k mod 12) as r eqn:Er. clear Eq Er.
  destruct (Z.leb_spec (y * 12 + (m - 1)) k) as [L|L].
  - destruct (Z.eq_dec (y * 12 + (m - 1)) k) as [Ek|Nk].
    + assert (y = q) by lia. assert (m = r + 1) by lia. subst y m.
      date_cases.
    + date_cases.
  - date_cases.
Qed.

Lemma zmin_list_sorted (k : Z) (t : list Z) :
  StronglySorted Z.le (k :: t) -> zmin_list k t = k.
Proof.
  intros S. inversion S as [|? ? St Hk]; subst. clear S.
  induction t as [|x u IH]; simpl; [reflexivity|].
  inversion St; subst. inversion Hk; subst.
  rewrite IH by assumption. lia.
Qed.

Lemma last_In {A : Type} (u : list A) (d : A) : u <> [] -> In (last u d) u.
Proof.
  induction u as [|x v IH]; [congruence|]. intros _.
  destruct v as [|y w]; [now left|].
  right. apply IH. discriminate.
Qed.

Lemma zmax_list_sorted (k : Z) (t : list Z) :
  StronglySorted Z.le (k :: t) -> zmax_list k t = last t k.
Proof.
  induction t as [|x u IH]; intros S; [reflexivity|].
  inversion S as [|? ? St Hk]; subst.
  inversion St as [|? ? Su Hx]; subst. inversion Hk as [|? ? Hkx Hku]; subst.
  cbn [zmax_list fold_right]. fold (zmax_list k u).
  rewrite IH by now constructor.
  destruct u as [|y w]; [simpl; lia|].
  change (last (x :: y :: w) k) with (last (y :: w) k).
  assert (I : In (last (y :: w) k) (y :: w)) by (apply last_In; discriminate).
  rewrite Forall_forall in Hx. apply Hx in I. lia.
Qed.


Lemma last_opt_cons {A : Type} (x : A) (l : list A) :
  l <> [] -> last_opt (x :: l) = last_opt l.
Proof. destruct l; [congruence | reflexivity]. Qed.

Lemma filter_none {A : Type} (p : A -> bool) (l : list A) :
  existsb p l = false -> filter p l = [].
Proof.
  induction l as [|x t IH]; simpl; [reflexivity|].
  destruct (p x); simpl; [discriminate | exact IH].
Qed.

Lemma filter_some {A : Type} (p : A -> bool) (l : list A) (x : A) :
  In x l -> p x = true -> filter p l <> [].
Proof.
  intros I P E. assert (F : In x (filter p l)) by (apply filter_In; auto).
  rewrite E in F. exact F.
Qed.

(** In a list sorted by key, the last row of key [k] is the last row of
    key at most [k], as soon as a row of key [k] exists. *)
Lemma last_opt_filter_sorted {A : Type} (key : A -> Z) (k : Z) (l : list A) :
  StronglySorted (fun a b => key a <= key b) l ->
  existsb (fun r => key r =? k) l = true ->
  last_opt (filter (fun r => key r =? k) l)
  = last_opt (filter (fun r => key r <=? k) l).
Proof.
  induction 1 as [|x t St IH Hx]; [discriminate|].
  intros Ex. cbn [filter existsb] in *. rewrite Forall_forall in Hx.
  destruct (Z.compare_spec (key x) k) as [E|L|G].
  - rewrite E, Z.eqb_refl, Z.leb_refl.
    destruct (existsb (fun r => key r =? k) t) eqn:Et.
    + apply existsb_exists in Et as Et'. destruct Et' as [y [Iy Ey]].
      rewrite !last_opt_cons; [now apply IH | |].
      * apply (filter_some _ _ y Iy). apply Z.leb_le. apply Z.eqb_eq in Ey. lia.
      * now apply (filter_some _ _ y Iy).
    + rewrite (filter_none _ _ Et).
      rewrite filter_none; [reflexivity|].
      destruct (existsb (fun r => key r <=? k) t) eqn:El; [|reflexivity].
      apply existsb_exists in El. destruct El as [y [Iy Ly]].
      assert (Ny : (key y =? k) = false).
      { destruct (key y =? k) eqn:Ey; [|reflexivity].
        assert (X : existsb (fun r => key r =? k) t = true)
          by (apply existsb_exists; eauto).
        congruence. }
      apply Hx in Iy. apply Z.leb_le in Ly. apply Z.eqb_neq in Ny. lia.
  - assert (N : (key x =? k) = false) by (apply Z.eqb_neq; lia).
    assert (T : (key x <=? k) = true) by (apply Z.leb_le; lia).
    rewrite N, T in *. simpl in Ex.
    apply existsb_exists in Ex as Ex'. destruct Ex' as [y [Iy Ey]].
    rewrite last_opt_cons; [now apply IH|].
    apply (filter_some _ _ y Iy). apply Z.leb_le. apply Z.eqb_eq in Ey. lia.
  - assert (N : (key x =? k) = false) by (apply Z.eqb_neq; lia).
    rewrite N in Ex. simpl in Ex.
    apply existsb_exists in Ex. destruct Ex as [y [Iy Ey]].
    apply Hx in Iy. apply Z.eqb_eq in Ey. lia.
Qed.

Lemma last_of_map {A B : Type} (g : A -> B) (l : list A) (d : A) :
  last (map g l) (g d) = g (last l d).
Proof.
  induction l as [|x t IH]; [reflexivity|].
  destruct t as [|y u]; [reflexivity|]. exact IH.
Qed.

Section MonthEnd.
Variable to_datetime : string -> option Date.
Variable to_numeric : string -> option Q.
Hypothesis to_datetime_valid : forall s d, to_datetime s = Some d -> valid_date d = true.

Lemma boc_daily_valid (df : list RawRow) (r : Row) :
  In r (boc_daily to_datetime to_numeric df) -> valid_date (date r) = true.
Proof.
  unfold boc_daily. rewrite sort_values_In, keep_some_In.
  intros [x [_ E]]. unfold coerce in E.
  destruct (to_datetime (raw_date x)) eqn:D; [|discriminate].
  destruct (to_numeric (raw_rate x)); [|discriminate].
  injection E as <-. simpl. eauto.
Qed.

Lemma boc_daily_month_sorted (df : list RawRow) :
  StronglySorted (fun a b => month_ord (date a) <= month_ord (date b))
    (boc_daily to_datetime to_numeric df).
Proof.
  eapply StronglySorted_keys; [|apply boc_daily_sorted].
  intros a b Ia Ib. apply month_ord_mono; eapply boc_daily_valid; eauto.
Qed.

Lemma boc_daily_bins (df : list RawRow) :
  resample_bins (map (fun r => month_ord (date r)) (boc_daily to_datetime to_numeric df))
  = PolicyRateSpec.month_span (boc_daily to_datetime to_numeric df).
Proof.
  pose proof (boc_daily_month_sorted df) as S.
  destruct (boc_daily to_datetime to_numeric df) as [|r t]; [reflexivity|].
  apply (StronglySorted_map _ Z.le (fun r => month_ord (date r))) in S; [|auto].
  cbn [map resample_bins PolicyRateSpec.month_span] in *.
  rewrite zmin_list_sorted, zmax_list_sorted by assumption.
  now rewrite (last_of_map (fun r => month_ord (date r)) t r).
Qed.

(** C6 (amended). The monthly table has exactly one row for every
    calendar month from the month of the first daily row to the month of
    the last one, dated at the month's end.  For a month in which a rate
    was observed, the row holds the last observation on or before that
    month's end; for a month without an observation the rate is absent
    (earlier observations are not carried forward). *)
Theorem policy_rate_month_end :
  forall df : list RawRow,
    let out := clean_boc_policy_rate to_datetime to_numeric df in
    let daily := fst (fst out) in
    snd (fst out)
    = map (fun k =>
             (month_end_of_ord k,
              if PolicyRateSpec.observed_in_month daily k
              then option_map policy_rate_pct (PolicyRateSpec.asof daily (month_end_of_ord k))
              else None))
        (PolicyRateSpec.month_span daily).
Proof.
  intros df. cbv zeta. unfold clean_boc_policy_rate. cbn [fst snd].
  unfold boc_monthly_end. rewrite boc_daily_bins.
  apply map_ext. intros k. f_equal.
  unfold PolicyRateSpec.observed_in_month, PolicyRateSpec.asof.
  destruct (existsb _ _) eqn:Ex.
  - f_equal.
    rewrite (last_opt_filter_sorted (fun r => month_ord (date r)) k)
      by (assumption || apply boc_daily_month_sorted).
    f_equal. apply filter_ext_in. intros r Ir.
    symmetry. apply date_leb_month_end. eapply boc_daily_valid; eauto.
  - now rewrite (filter_none _ _ Ex).
Qed.

End MonthEnd.

Lemma sample_to_datetime_valid (s : string) (d : Date) :
  Sample.to_datetime s = Some d -> valid_date d = true.
Proof.
  unfold Sample.to_datetime. destruct (Sample.iso_fields s) as [dt|]; [|discriminate].
  destruct (valid_date dt) eqn:V; [|discriminate].
  intros E. injection E as <-. exact V.
Qed.

Lemma policy_rate_month_end_witness :
  snd (fst (clean_boc_policy_rate Sample.to_datetime Sample.to_numeric
              [mkRaw "2024-01-30" "5.00"; mkRaw "2024-01-31" "5.25";
               mkRaw "2024-02-01" "4.75"]))
  = [(mkDate 2024 1 31, Some (Qred 5.25)); (mkDate 2024 2 29, Some (Qred 4.75))].
Proof.
  rewrite (policy_rate_month_end Sample.to_datetime Sample.to_numeric
             sample_to_datetime_valid).
  vm_compute. reflexivity.
Defined.

(** C6, as stated, fails: February 2024 has no observation, and its row
    holds an absent rate although the last observation on or before
    2024-02-29 is the rate 5 of 2024-01-15. *)
Lemma policy_rate_gap_month_absent :
  let out := clean_boc_policy_rate Sample.to_datetime Sample.to_numeric
               [mkRaw "2024-01-15" "5.00"; mkRaw "2024-03-10" "4.75"] in
  snd (fst out)
  = [(mkDate 2024 1 31, Some 5%Q); (mkDate 2024 2 29, None);
     (mkDate 2024 3 31, Some (Qred 4.75))]
  /\ option_map policy_rate_pct (PolicyRateSpec.asof (fst (fst out)) (mkDate 2024 2 29))
     = Some 5%Q.
Proof. vm_compute. split; reflexivity. Qed.

End PolicyRateFacts.

(** * 2. Housing starts: facts *)

Module HousingStartsFacts.

Import HousingStarts.

Lemma strptime_valid (s : string) (d : Date) :
  strptime_b_y_d s = Some d -> valid_date d = true.
Proof.
  unfold strptime_b_y_d. destruct (strptime_fields s) as [dt|]; [|discriminate].
  destruct (valid_date dt) eqn:V; [|discriminate].
  intros E. injection E as <-. exact V.
Qed.

Lemma label_date_month (l : string) (d : Date) :
  label_date l = Some d -> 1 <= month d <= 12.
Proof.
  unfold label_date. destruct (strptime_b_y_d (l ++ "-01")) as [dt|] eqn:E; [|discriminate].
  intros X. injection X as <-. apply strptime_valid in E.
  unfold valid_date in E. simpl. lia.
Qed.

Lemma starts_monthly_month (to_numeric : string -> option Q) (f : Frame) (r : Row) (d : Date) :
  In r (starts_monthly to_numeric f) -> date r = Some d -> 1 <= month d <= 12.
Proof.
  unfold starts_monthly. rewrite sort_values_In, in_map_iff.
  intros [p [<- _]]. simpl. apply label_date_month.
Qed.

Lemma quarter_ord_in_quarter (d : Date) (k : Z) :
  1 <= month d <= 12 ->
  (quarter_ord d =? k) = StartsSpec.in_quarter (k / 4) (k mod 4 + 1) d.
Proof.
  unfold quarter_ord, StartsSpec.in_quarter. intros M.
  destruct (Z.eqb_spec (year d * 4 + (month d - 1) / 3) k);
    destruct (Z.eqb_spec (year d) (k / 4));
    destruct (Z.leb_spec (3 * (k mod 4 + 1) - 2) (month d));
    destruct (Z.leb_spec (month d) (3 * (k mod 4 + 1)));
    simpl; try reflexivity; exfalso;
    Z.to_euclidean_division_equations; lia.
Qed.

Lemma dated_ords (monthly : list Row) :
  map (fun p => quarter_ord (fst p)) (dated monthly)
  = map quarter_ord (keep_some date monthly).
Proof.
  unfold dated. induction monthly as [|r t IH]; [reflexivity|].
  simpl. destruct (date r); simpl; congruence.
Qed.

Lemma quarter_bin_values (monthly : list Row) (k : Z) :
  (forall r d, In r monthly -> date r = Some d -> 1 <= month d <= 12) ->
  keep_some snd (filter (fun p => quarter_ord (fst p) =? k) (dated monthly))
  = StartsSpec.quarter_values monthly (k / 4) (k mod 4 + 1).
Proof.
  unfold dated, StartsSpec.quarter_values.
  induction monthly as [|r t IH]; intros H; [reflexivity|].
  assert (Ht : forall r d, In r t -> date r = Some d -> 1 <= month d <= 12)
    by (intros; eapply H; [right|]; eauto).
  specialize (IH Ht). simpl.
  destruct (date r) as [d|] eqn:E; simpl; [|exact IH].
  rewrite (quarter_ord_in_quarter d k) by (eapply H; [left|]; eauto).
  destruct (StartsSpec.in_quarter (k / 4) (k mod 4 + 1) d); simpl; [|exact IH].
  destruct (starts_saar_units r); congruence.
Qed.

(** C3 (amended). Every row of the quarterly table is dated at the end
    of its quarter and holds the arithmetic mean of exactly the monthly
    values that are present and whose month falls in that quarter.  The
    table has one row for every quarter from the earliest to the latest
    quarter holding a dated monthly row: a quarter in between without a
    contributing value appears with an absent mean, and no quarter
    outside that range appears.  The values 28000, 30000, 31000 of the
    first quarter of 2024 give the mean 89000/3, which is 29666.67 to
    two decimals. *)
Theorem housing_starts_quarterly_mean :
  forall (to_numeric : string -> option Q) (f : Frame)
         (monthly : list Row) (quarterly : list (Date * option Q)),
    clean_housing_starts to_numeric f = Some (monthly, quarterly) ->
    quarterly
    = map (fun k =>
             (month_end (k / 4) (3 * (k mod 4 + 1)),
              mean (StartsSpec.quarter_values monthly (k / 4) (k mod 4 + 1))))
        (StartsSpec.quarter_span monthly)
    /\ option_map snd
         (clean_housing_starts Sample.to_numeric
            (mkFrame ["Jan-24"; "Feb-24"; "Mar-24"]
               [(Some "Alberta", [Some "28000"; Some "30000"; Some "31000"])]))
       = Some [(mkDate 2024 3 31, Some (89000 # 3)%Q)]
    /\ (29666.665 <= 89000 # 3 < 29666.675)%Q.
Proof.
  intros tn f monthly quarterly H. split; [|split].
  - unfold clean_housing_starts in H.
    destruct (existsb _ _); [|discriminate].
    destruct (resample_raises _); [discriminate|]. injection H as <- <-.
    unfold starts_quarterly, StartsSpec.quarter_span.
    rewrite dated_ords. apply map_ext. intros k. f_equal.
    + unfold quarter_end_of_ord. f_equal. ring.
    + f_equal. apply quarter_bin_values. apply starts_monthly_month.
  - vm_compute. reflexivity.
  - split; [now vm_compute | reflexivity].
Qed.

Lemma housing_starts_quarterly_mean_witness :
  [(mkDate 2024 3 31, Some 5%Q); (mkDate 2024 6 30, Some 7%Q)]
  = map (fun k =>
           (month_end (k / 4) (3 * (k mod 4 + 1)),
            mean (StartsSpec.quarter_values
                    [mkRow (Some (mkDate 2024 3 31)) (Some 5%Q);
                     mkRow (Some (mkDate 2024 4 30)) (Some 7%Q)]
                    (k / 4) (k mod 4 + 1))))
      (StartsSpec.quarter_span
         [mkRow (Some (mkDate 2024 3 31)) (Some 5%Q);
          mkRow (Some (mkDate 2024 4 30)) (Some 7%Q)]).
Proof.
  exact (proj1 (housing_starts_quarterly_mean Sample.to_numeric
                  (mkFrame ["Mar-24"; "Apr-24"] [(Some "Alberta", [Some "5"; Some "7"])])
                  _ _ eq_refl)).
Defined.

(** C3, as stated, fails: with values for January and July 2024 only,
    the second quarter has no contributing monthly observation and still
    has a row, with an absent mean. *)
Lemma housing_starts_gap_quarter_row :
  clean_housing_starts Sample.to_numeric
    (mkFrame ["Jan-24"; "Jul-24"] [(Some "Alberta", [Some "28000"; Some "30000"])])
  = Some ([mkRow (Some (mkDate 2024 1 31)) (Some 28000%Q);
           mkRow (Some (mkDate 2024 7 31)) (Some 30000%Q)],
          [(mkDate 2024 3 31, Some 28000%Q); (mkDate 2024 6 30, None);
           (mkDate 2024 9 30, Some 30000%Q)]).
Proof. vm_compute. reflexivity. Qed.


(** ** Which (month, value) pairs are retained *)

Lemma contributions_melted (to_numeric : string -> option Q)
  (l : list (option string * string * option string)) :
  flat_map (StartsSpec.contribution to_numeric) (map (fun t => (snd (fst t), snd t)) l)
  = map (fun p => mkRow (label_date (fst p)) (to_numeric (snd p)))
      (keep_some (fun p => option_map (fun v => (snd (fst p), v)) (snd p)) l).
Proof.
  induction l as [|[[g lbl] [v|]] t IH]; [reflexivity| |exact IH].
  cbn [map flat_map keep_some fst snd option_map]. rewrite IH. reflexivity.
Qed.

Lemma starts_monthly_contributions (to_numeric : string -> option Q) (f : Frame) :
  Permutation (starts_monthly to_numeric f)
    (flat_map (StartsSpec.contribution to_numeric) (StartsSpec.cells f)).
Proof.
  unfold starts_monthly, StartsSpec.cells, melted.
  rewrite sort_values_perm, contributions_melted. reflexivity.
Qed.

(** C9 (amended). A (month label, value) pair is dropped from the monthly
    table exactly when its cell is missing in the file; every pair whose
    cell is present is retained, with its number when the coercion
    succeeds and with an absent value when it fails. *)
Theorem housing_starts_retained_pairs :
  forall (to_numeric : string -> option Q) (f : Frame)
         (monthly : list Row) (quarterly : list (Date * option Q)),
    clean_housing_starts to_numeric f = Some (monthly, quarterly) ->
    Permutation monthly
      (flat_map (StartsSpec.contribution to_numeric) (StartsSpec.cells f))
    /\ (forall label v, In (label, Some v) (StartsSpec.cells f) ->
                        In (mkRow (label_date label) (to_numeric v)) monthly)
    /\ (forall label, StartsSpec.contribution to_numeric (label, None) = []).
Proof.
  intros tn f monthly quarterly H.
  unfold clean_housing_starts in H.
  destruct (existsb _ _); [|discriminate].
  destruct (resample_raises _); [discriminate|]. injection H as <- _.
  split; [apply starts_monthly_contributions|]. split; [|reflexivity].
  intros label v I.
  apply (Permutation_in _ (Permutation_sym (starts_monthly_contributions tn f))).
  apply in_flat_map. exists (label, Some v). split; [exact I | now left].
Qed.

Lemma housing_starts_retained_pairs_witness :
  In (mkRow (label_date "Feb-24") (Sample.to_numeric "30000"))
    [mkRow (Some (mkDate 2024 2 29)) (Some 30000%Q)].
Proof.
  exact (proj1 (proj2 (housing_starts_retained_pairs Sample.to_numeric
                         (mkFrame ["Jan-24"; "Feb-24"]
                            [(Some "Alberta", [None; Some "30000"])])
                         _ _ eq_refl))
           "Feb-24" "30000" (or_intror (or_introl eq_refl))).
Defined.

(** C9, as stated, fails: the value ".." of February fails the numeric
    coercion and its pair is retained, with an absent value; only the
    missing cell of March is dropped. *)
Lemma housing_starts_keeps_unparsed_value :
  Sample.to_numeric ".." = None
  /\ option_map fst
       (clean_housing_starts Sample.to_numeric
          (mkFrame ["Jan-24"; "Feb-24"; "Mar-24"]
             [(Some "Alberta", [Some "28000"; Some ".."; None])]))
     = Some [mkRow (Some (mkDate 2024 1 31)) (Some 28000%Q);
             mkRow (Some (mkDate 2024 2 29)) None].
Proof. vm_compute. split; reflexivity. Qed.

End HousingStartsFacts.
(** * 3. International migration: facts *)

Module MigrationFacts.

Import Migration.

Section Cleaner.
Variable period_of : string -> option (option Period).
Variable to_numeric : string -> option Q.

Lemma wide_inv (df : list RawRow) (wide : list WideRow) :
  mig_quarterly_wide period_of to_numeric df = Some wide ->
  columns_ok df = true
  /\ exists l, all_some (map (clean_row period_of to_numeric) df) = Some l
               /\ wide = sort_values (fun a b => odate_leb (quarter a) (quarter b)) l.
Proof.
  unfold mig_quarterly_wide. destruct (columns_ok df); [|discriminate].
  destruct (all_some _) as [l|]; [|discriminate].
  intros E. injection E as <-. split; [reflexivity|]. now exists l.
Qed.

Lemma wide_rows_cleaned (df : list RawRow) (wide : list WideRow) (r : WideRow) :
  mig_quarterly_wide period_of to_numeric df = Some wide -> In r wide ->
  exists x, In x df /\ clean_row period_of to_numeric x = Some r.
Proof.
  intros H I. apply wide_inv in H. destruct H as [_ [l [E ->]]].
  apply sort_values_In in I.
  apply all_some_Forall2 in E. exact (Forall2_In_r _ _ _ _ E I).
Qed.

Lemma clean_row_pressure (x : RawRow) (r : WideRow) :
  clean_row period_of to_numeric x = Some r ->
  total_pressure r = oadd (immigrants r) (net_non_permanent_residents r).
Proof.
  unfold clean_row. destruct (quarter_of _ _); [|discriminate].
  intros E. injection E as <-. reflexivity.
Qed.

Lemma clean_rows_agree (df df' : list RawRow) (l : list WideRow) :
  Forall2 MigrationSpec.agree_but_emigration df df' ->
  all_some (map (clean_row period_of to_numeric) df) = Some l ->
  exists l', all_some (map (clean_row period_of to_numeric) df') = Some l'
             /\ map MigrationSpec.pressure_view l' = map MigrationSpec.pressure_view l.
Proof.
  intros F. revert l. induction F as [|x y t u [E1 [E2 E3]] _ IH]; simpl; intros l H.
  - injection H as <-. exists []. split; reflexivity.
  - unfold clean_row at 1 in H. unfold clean_row at 1.
    rewrite <- E1, <- E2, <- E3.
    destruct (quarter_of period_of (reference_period x)) as [q|]; [|discriminate].
    destruct (all_some (map (clean_row period_of to_numeric) t)) as [lt|]; [|discriminate].
    destruct (IH lt eq_refl) as [lu [Eu Ev]]. rewrite Eu.
    injection H as <-. eexists. split; [reflexivity|].
    simpl. rewrite Ev. reflexivity.
Qed.

Lemma columns_agree (df df' : list RawRow) :
  Forall2 MigrationSpec.agree_but_emigration df df' ->
  map reference_period df' = map reference_period df
  /\ map immigrants_cell df' = map immigrants_cell df
  /\ map net_non_permanent_residents_cell df'
     = map net_non_permanent_residents_cell df.
Proof.
  induction 1 as [|x y t u [E1 [E2 E3]] _ [I1 [I2 I3]]]; simpl; [auto|].
  rewrite E1, E2, E3, I1, I2, I3. auto.
Qed.

Lemma wide_agree (df df' : list RawRow) (wide : list WideRow) :
  mig_quarterly_wide period_of to_numeric df = Some wide ->
  Forall2 MigrationSpec.agree_but_emigration df df' ->
  count_column_ok (map net_emigration_cell df') = true ->
  exists wide', mig_quarterly_wide period_of to_numeric df' = Some wide'
                /\ map MigrationSpec.pressure_view wide'
                   = map MigrationSpec.pressure_view wide.
Proof.
  intros W F C. apply wide_inv in W. destruct W as [Ok [l [E ->]]].
  destruct (clean_rows_agree df df' l F E) as [l' [E' V]].
  destruct (columns_agree df df' F) as [C1 [C2 C3]].
  unfold mig_quarterly_wide, columns_ok. rewrite C1, C2, C3, C.
  unfold columns_ok in Ok.
  repeat (apply andb_prop in Ok; destruct Ok as [Ok ?]).
  rewrite Ok, H1, H. cbn [andb]. rewrite E'. eexists. split; [reflexivity|].
  set (leb' := fun a b : option Date * option Q * option Q * option Q =>
                 odate_leb (fst (fst (fst a))) (fst (fst (fst b)))).
  rewrite !(sort_values_map MigrationSpec.pressure_view _ leb') by reflexivity.
  now rewrite V.
Qed.

End Cleaner.

(** C1. In every row of the wide table, total_pressure is immigrants
    plus net_non_permanent_residents when both are present and is absent
    when either is absent; and the net-emigration cells of the file do
    not contribute: a file that differs in them only gives the same
    quarter, immigrants, net_non_permanent_residents and total_pressure
    columns, and the cleaner returns on it as soon as its net-emigration
    column does not hold placeholders only. *)
Theorem migration_total_pressure :
  forall (period_of : string -> option (option Period))
         (to_numeric : string -> option Q)
         (df : list RawRow) (wide : list WideRow) (long : list LongRow),
    clean_international_migration period_of to_numeric df = Some (wide, long) ->
    (forall r, In r wide ->
       (forall a b, immigrants r = Some a -> net_non_permanent_residents r = Some b ->
                    total_pressure r = Some (a + b)%Q)
       /\ (immigrants r = None \/ net_non_permanent_residents r = None ->
           total_pressure r = None))
    /\ (forall df' wide' long',
          Forall2 MigrationSpec.agree_but_emigration df df' ->
          clean_international_migration period_of to_numeric df' = Some (wide', long') ->
          map MigrationSpec.pressure_view wide' = map MigrationSpec.pressure_view wide)
    /\ (forall df',
          Forall2 MigrationSpec.agree_but_emigration df df' ->
          count_column_ok (map net_emigration_cell df') = true ->
          exists wide' long',
            clean_international_migration period_of to_numeric df' = Some (wide', long')).
Proof.
  intros po tn df wide long H. unfold clean_international_migration in *.
  destruct (mig_quarterly_wide po tn df) as [w|] eqn:W; [|discriminate].
  injection H as <- _. split; [|split].
  - intros r I. destruct (wide_rows_cleaned po tn df w r W I) as [x [_ Ex]].
    apply clean_row_pressure in Ex. rewrite Ex. split.
    + intros a b -> ->. reflexivity.
    + intros [-> | ->]; [reflexivity|]. now destruct (immigrants r).
  - intros df' wide' long' F H'.
    destruct (mig_quarterly_wide po tn df') as [w'|] eqn:W'; [|discriminate].
    injection H' as <- _.
    assert (C : count_column_ok (map net_emigration_cell df') = true).
    { apply wide_inv in W'. destruct W' as [Ok _]. unfold columns_ok in Ok.
      repeat (apply andb_prop in Ok; destruct Ok as [Ok ?]). assumption. }
    destruct (wide_agree po tn df df' w W F C) as [w2 [E2 V]]. congruence.
  - intros df' F C.
    destruct (wide_agree po tn df df' w W F C) as [w2 [E2 _]].
    rewrite E2. do 2 eexists. reflexivity.
Qed.

Lemma migration_total_pressure_witness :
  total_pressure (mkWide (Some (mkDate 2024 6 30)) (Some 1000%Q) (Some 20%Q)
                    (Some (-5)%Q) (Some 1020%Q))
  = Some (1000 + 20)%Q.
Proof.
  exact (proj1 (proj1 (migration_total_pressure Sample.period_of Sample.to_numeric
                         [mkRaw (Some "Q2 2024") "1,000" "-5" "20"] _ _ eq_refl)
                  _ (or_introl eq_refl))
           1000%Q 20%Q eq_refl eq_refl).
Defined.


(** ** Round trip through the long table *)









Lemma wide_sorted (period_of : string -> option (option Period))
  (to_numeric : string -> option Q) (df : list RawRow) (wide : list WideRow) :
  mig_quarterly_wide period_of to_numeric df = Some wide ->
  StronglySorted (fun a b => odate_leb a b = true) (map quarter wide).
Proof.
  intros H. apply wide_inv in H. destruct H as [_ [l [_ ->]]].
  apply (StronglySorted_map
           (fun a b => odate_leb (quarter a) (quarter b) = true)); [auto|].
  apply sort_values_sorted.
  - intros a b. apply odate_leb_total.
  - intros a b c. apply odate_leb_trans.
Qed.






(** A row without reference period is the last row of the wide table
    and the first row of the pivoted long table. *)
Lemma migration_undated_row_moves :
  option_map (fun out => (map quarter (fst out),
                          option_map (map quarter) (pivot_long (snd out))))
    (clean_international_migration Sample.period_of Sample.to_numeric
       [mkRaw None "5" "1" "2"; mkRaw (Some "Q1 2024") "10" "1" "2"])
  = Some ([Some (mkDate 2024 3 31); None], Some [None; Some (mkDate 2024 3 31)]).
Proof. vm_compute. reflexivity. Qed.

End MigrationFacts.

(** * 5. Interprovincial migration: facts *)

Module InterprovFacts.

Import Interprov.

Lemma iloc_1_3_nth {A : Type} (l l' : list A) :
  nth_error l 1 = nth_error l' 1 -> nth_error l 2 = nth_error l' 2 ->
  iloc_1_3 l = iloc_1_3 l'.
Proof.
  unfold iloc_1_3.
  destruct l as [|a [|b [|c t]]], l' as [|a' [|b' [|c' t']]]; simpl;
    intros E1 E2; congruence.
Qed.

Lemma combine_Forall2 {A B C : Type} (R1 : A -> B -> Prop) (R2 : A -> C -> Prop)
  (m : list A) (ps : list B) (qs : list C) :
  Forall2 R1 m ps -> Forall2 R2 m qs ->
  Forall2 (fun t x => fst (fst x) = t /\ R1 t (snd (fst x)) /\ R2 t (snd x))
    m (combine (combine m ps) qs).
Proof.
  intros F1. revert qs. induction F1 as [|t p m' ps' Hp _ IH]; intros qs F2.
  - inversion F2. constructor.
  - inversion F2; subst. simpl. constructor; auto.
Qed.

Section Cleaner.
Variable float_of : string -> option (option Q).

Lemma long_of_cells (df : Frame) (long : list LongRow) :
  long_of float_of df = Some long -> Forall2 (InterprovSpec.long_of_cell float_of) (melted df) long.
Proof.
  unfold long_of.
  destruct (all_some (map (fun t => to_people float_of (snd t)) (melted df)))
    as [ps|] eqn:P; [|discriminate].
  destruct (all_some (map (fun t => to_q_end (snd (fst t))) (melted df)))
    as [qs|] eqn:Qs; [|discriminate].
  intros E. injection E as <-.
  apply all_some_Forall2 in P. apply all_some_Forall2 in Qs.
  pose proof (combine_Forall2 _ _ _ _ _ P Qs) as F.
  clear P Qs. induction F as [|t x m l [E1 [E2 E3]] _ IH]; simpl; constructor; auto.
  unfold InterprovSpec.long_of_cell. simpl. rewrite E1. auto.
Qed.

Lemma iloc_1_3_In {A : Type} (l : list A) (i : nat) (x : A) :
  (i = 1 \/ i = 2)%nat -> nth_error l i = Some x -> In x (iloc_1_3 l).
Proof.
  unfold iloc_1_3. intros [-> | ->]; destruct l as [|a [|b [|c t]]]; simpl;
    intros E; try discriminate E; injection E as <-; auto.
Qed.

Lemma long_flows (df : Frame) (long : list LongRow) :
  Forall2 (InterprovSpec.long_of_cell float_of) (melted df) long ->
  map flow_type long = map (fun t => fst (fst t)) (melted df).
Proof.
  induction 1 as [|t r m l [Ef _] _ IH]; simpl; [reflexivity|].
  now rewrite IH, Ef.
Qed.

(** C7 (amended). The cleaner consumes the data rows at positions 1 and
    2, counted from 0 (lines 2 and 3 of the file when the header line is
    line 0), as the flow series, skipping the first data row: each of
    these rows gives one row of the long table per label column, holding
    its flow label, the column label and its cell read as a number; the
    flow types of the long table are the labels of these rows, once per
    label column; and two files with the same header that agree on
    these two rows give the same result, whatever their other data rows
    hold. *)
Theorem interprov_consumed_rows :
  forall (labels : list string) (rows rows' : list (string * list string)),
    nth_error rows 1 = nth_error rows' 1 ->
    nth_error rows 2 = nth_error rows' 2 ->
    clean_interprov_migration float_of (mkFrame labels rows)
    = clean_interprov_migration float_of (mkFrame labels rows')
    /\ (forall long wide,
          clean_interprov_migration float_of (mkFrame labels rows) = Some (long, wide) ->
          map flow_type long
          = flat_map (fun _ => InterprovSpec.consumed_flows (mkFrame labels rows)) labels
          /\ (forall r, In r long ->
                In (flow_type r) (InterprovSpec.consumed_flows (mkFrame labels rows)))
          /\ (forall (i : nat) (row : string * list string) (j : nat) (lbl : string),
                (i = 1 \/ i = 2)%nat ->
                nth_error rows i = Some row -> nth_error labels j = Some lbl ->
                exists p q,
                  to_people float_of (nth j (snd row) "nan") = Some p
                  /\ to_q_end lbl = Some q
                  /\ In (mkLong (fst row) lbl p q) long)).
Proof.
  intros labels rows rows' E1 E2. split.
  - unfold clean_interprov_migration, long_of, melted. cbn [Interprov.rows Interprov.labels].
    now rewrite (iloc_1_3_nth rows rows' E1 E2).
  - intros long wide H. unfold clean_interprov_migration in H.
    destruct (long_of float_of (mkFrame labels rows)) as [l|] eqn:L; [|discriminate].
    destruct (pivot l); [|discriminate].
    destruct (finish_wide w); [|discriminate]. injection H as <- _.
    apply long_of_cells in L.
    assert (F : map flow_type l
                = flat_map (fun _ => InterprovSpec.consumed_flows (mkFrame labels rows))
                    labels).
    { rewrite (long_flows _ _ L). unfold melted. apply melt_keys. }
    split; [exact F|]. split.
    + intros r I. apply (in_map flow_type) in I. rewrite F in I.
      apply in_flat_map in I. destruct I as [_ [_ I]]. exact I.
    + intros i row j lbl Hi Er Ej.
      pose proof (iloc_1_3_In rows i row Hi Er) as Ir.
      pose proof (melt_In "nan" labels (iloc_1_3 rows) j lbl row Ej Ir) as M.
      destruct (Forall2_In_l _ _ _ _ L M) as [y [Iy [Ef [El [Ep Eq]]]]].
      cbn [fst snd] in *. exists (people y), (quarter y).
      split; [exact Ep|]. split; [exact Eq|].
      rewrite <- Ef, <- El. now destruct y.
Qed.





End Cleaner.

Lemma interprov_consumed_rows_witness :
  clean_interprov_migration Sample.float_of
    (mkFrame ["Q1 2024"]
       [("Units", ["persons"]); ("In-migrants", ["1,000"]); ("Out-migrants", ["400"])])
  = clean_interprov_migration Sample.float_of
      (mkFrame ["Q1 2024"]
         [("Geography", ["Alberta"]); ("In-migrants", ["1,000"]); ("Out-migrants", ["400"]);
          ("Footnote", ["x"])]).
Proof.
  exact (proj1 (interprov_consumed_rows Sample.float_of ["Q1 2024"]
                  [("Units", ["persons"]); ("In-migrants", ["1,000"]); ("Out-migrants", ["400"])]
                  [("Geography", ["Alberta"]); ("In-migrants", ["1,000"]);
                   ("Out-migrants", ["400"]); ("Footnote", ["x"])]
                  eq_refl eq_refl)).
Defined.

(** C7, as stated, fails: counted from 0, the data row at position 3
    does not influence the result, and the data row at position 1 does.
    The two files below agree on the data rows 2 and 3 and differ in
    data row 1 only; their results differ. *)
Lemma interprov_row_one_is_consumed :
  option_map (fun out => map flow_type (fst out))
    (clean_interprov_migration Sample.float_of
       (mkFrame ["Q1 2024"]
          [("Units", ["persons"]); ("In-migrants", ["1,000"]);
           ("Out-migrants", ["400"]); ("Footnote", ["7"])]))
  = Some ["In-migrants"; "Out-migrants"]
  /\ option_map (fun out => map flow_type (fst out))
       (clean_interprov_migration Sample.float_of
          (mkFrame ["Q1 2024"]
             [("Units", ["persons"]); ("Net", ["600"]);
              ("Out-migrants", ["400"]); ("Footnote", ["7"])]))
     = Some ["Net"; "Out-migrants"].
Proof. vm_compute. split; reflexivity. Qed.


(** ** The wide frame after the pivot *)

Lemma finish_wide_inv (w0 wide : Wide) :
  finish_wide w0 = Some wide ->
  wide = mkWide (columns (set_col "interprov_net" net_of (before_net w0)))
           (sort_values (fun a b => date_leb (fst a) (fst b))
              (wrows (set_col "interprov_net" net_of (before_net w0)))).
Proof.
  unfold finish_wide.
  destruct (has_col "quarter" w0); [discriminate|].
  destruct (negb _); [discriminate|].
  destruct (has_col "quarter" _); [discriminate|].
  intros E. injection E as <-. reflexivity.
Qed.

Lemma has_col_In (n : string) (w : Wide) : has_col n w = true <-> In n (columns w).
Proof.
  unfold has_col. rewrite existsb_exists. split.
  - intros [x [I E]]. apply String.eqb_eq in E. now subst.
  - intros I. exists n. split; [exact I | apply String.eqb_refl].
Qed.










(** ** Columns of the wide frame *)

Lemma lookup_overwrite_same (n : string) (v : option Q) (vals : list (string * option Q)) :
  In n (map fst vals) -> lookup n (map (overwrite n v) vals) = v.
Proof.
  unfold lookup. induction vals as [|[m x] t IH]; [simpl; tauto|].
  intros I. cbn [map find].
  change (overwrite n v (m, x)) with (if String.eqb n m then (m, v) else (m, x)).
  destruct (String.eqb n m) eqn:E; cbn [fst snd]; rewrite E; [reflexivity|].
  apply IH. destruct I as [I|I]; [|exact I].
  simpl in I. subst. rewrite String.eqb_refl in E. discriminate.
Qed.

Lemma lookup_overwrite_other (n m : string) (v : option Q) (vals : list (string * option Q)) :
  m <> n -> lookup m (map (overwrite n v) vals) = lookup m vals.
Proof.
  intros N. unfold lookup. induction vals as [|[c x] t IH]; [reflexivity|].
  cbn [map find].
  change (overwrite n v (c, x)) with (if String.eqb n c then (c, v) else (c, x)).
  destruct (String.eqb n c) eqn:E; cbn [fst snd].
  - apply String.eqb_eq in E. subst c.
    destruct (String.eqb_spec m n); [contradiction | exact IH].
  - destruct (String.eqb m c); [reflexivity | exact IH].
Qed.

Lemma lookup_append_new (n : string) (v : option Q) (vals : list (string * option Q)) :
  ~ In n (map fst vals) -> lookup n (vals ++ [(n, v)]) = v.
Proof.
  unfold lookup. induction vals as [|[c x] t IH]; simpl.
  - now rewrite String.eqb_refl.
  - intros N. destruct (String.eqb_spec n c) as [->|Nc]; [elim N; now left|].
    apply IH. tauto.
Qed.

Lemma lookup_append_other (n m : string) (v : option Q) (vals : list (string * option Q)) :
  m <> n -> lookup m (vals ++ [(n, v)]) = lookup m vals.
Proof.
  intros N. unfold lookup. induction vals as [|[c x] t IH]; simpl.
  - destruct (String.eqb_spec m n); [contradiction | reflexivity].
  - destruct (String.eqb_spec m c); [reflexivity | exact IH].
Qed.

Lemma get_lookup (n : string) (r : Row) : get n r = lookup n (snd r).
Proof. reflexivity. Qed.

(** What [set_col] does to a row of a well-formed frame. *)
Lemma set_col_rows (n : string) (f : Row -> option Q) (w : Wide) (r : Row) :
  InterprovSpec.well_formed w -> In r (wrows (set_col n f w)) ->
  exists r0, In r0 (wrows w) /\ fst r = fst r0 /\ get n r = f r0
             /\ forall m, m <> n -> get m r = get m r0.
Proof.
  intros W I. unfold set_col in I. destruct (has_col n w) eqn:H; simpl in I;
    apply in_map_iff in I; destruct I as [r0 [<- I0]]; exists r0;
    (split; [exact I0|]); (split; [reflexivity|]); rewrite !get_lookup; simpl.
  - split.
    + apply (lookup_overwrite_same n (f r0)). rewrite (W r0 I0). now apply has_col_In.
    + intros m N. rewrite get_lookup. now apply (lookup_overwrite_other n m (f r0)).
  - split.
    + apply lookup_append_new. rewrite (W r0 I0). intros X.
      apply has_col_In in X. congruence.
    + intros m N. rewrite get_lookup. now apply lookup_append_other.
Qed.

Lemma overwrite_names (n : string) (v : option Q) (vals : list (string * option Q)) :
  map fst (map (overwrite n v) vals) = map fst vals.
Proof.
  rewrite map_map. apply map_ext. intros p. unfold overwrite.
  now destruct (String.eqb n (fst p)).
Qed.

Lemma set_col_well_formed (n : string) (f : Row -> option Q) (w : Wide) :
  InterprovSpec.well_formed w -> InterprovSpec.well_formed (set_col n f w).
Proof.
  intros W r I. unfold set_col in *. destruct (has_col n w); simpl in *;
    apply in_map_iff in I; destruct I as [r0 [<- I0]]; simpl.
  - rewrite overwrite_names. now apply W.
  - rewrite map_app. simpl. now rewrite (W r0 I0).
Qed.

Lemma default_col_well_formed (n : string) (w : Wide) :
  InterprovSpec.well_formed w -> InterprovSpec.well_formed (default_col n w).
Proof.
  intros W. unfold default_col. destruct (has_col n w); [exact W|].
  now apply set_col_well_formed.
Qed.

Lemma rename_well_formed (f : string -> string) (w : Wide) :
  InterprovSpec.well_formed w -> InterprovSpec.well_formed (rename f w).
Proof.
  intros W r I. unfold rename in *. simpl in *.
  apply in_map_iff in I. destruct I as [r0 [<- I0]]. simpl.
  rewrite map_map. simpl. rewrite <- (W r0 I0). now rewrite map_map.
Qed.

Lemma pivot_well_formed (long : list LongRow) (w0 : Wide) :
  pivot long = Some w0 -> InterprovSpec.well_formed w0.
Proof.
  unfold pivot. destruct (has_dup _); [discriminate|].
  intros E. injection E as <-. intros r I. simpl in *.
  apply in_map_iff in I. destruct I as [q [<- _]]. simpl.
  rewrite map_map. simpl. apply map_id.
Qed.

Lemma pivot_columns (long : list LongRow) (w0 : Wide) (c : string) :
  pivot long = Some w0 -> In c (columns w0) -> In c (map flow_type long).
Proof.
  unfold pivot. destruct (has_dup _); [discriminate|].
  intros E. injection E as <-. simpl. apply unique_sorted_str_In.
Qed.

Lemma before_net_well_formed (w0 : Wide) :
  InterprovSpec.well_formed w0 -> InterprovSpec.well_formed (before_net w0).
Proof.
  intros W. unfold before_net.
  now apply default_col_well_formed, default_col_well_formed,
    rename_well_formed, rename_well_formed.
Qed.

(** A column that the renaming does not produce is filled with zeros. *)
Lemma default_col_zero (n : string) (w : Wide) (r : Row) :
  InterprovSpec.well_formed w -> ~ In n (columns w) ->
  In r (wrows (default_col n w)) -> get n r = Some 0%Q.
Proof.
  intros W N I. unfold default_col in I.
  destruct (has_col n w) eqn:H; [apply has_col_In in H; contradiction|].
  destruct (set_col_rows n _ w r W I) as [r0 [_ [_ [E _]]]]. exact E.
Qed.

Lemma default_col_other (n m : string) (w : Wide) (r : Row) (v : option Q) :
  InterprovSpec.well_formed w -> m <> n ->
  (forall r0, In r0 (wrows w) -> get m r0 = v) ->
  In r (wrows (default_col n w)) -> get m r = v.
Proof.
  intros W N H I. unfold default_col in I.
  destruct (has_col n w); [now apply H|].
  destruct (set_col_rows n _ w r W I) as [r0 [I0 [_ [_ E]]]].
  rewrite (E m N). now apply H.
Qed.

Lemma default_col_columns (n m : string) (w : Wide) :
  m <> n -> In m (columns (default_col n w)) -> In m (columns w).
Proof.
  intros N. unfold default_col, set_col. destruct (has_col n w); [auto|].
  simpl. intros I. apply in_app_or in I. destruct I as [I|[E|[]]]; [exact I | congruence].
Qed.

Lemma renamed_columns (w0 : Wide) (c : string) :
  In c (columns (rename canon_col (rename norm_col w0))) ->
  exists f, In f (columns w0) /\ c = canon_col (norm_col f).
Proof.
  unfold rename. simpl. rewrite map_map. intros I.
  apply in_map_iff in I. destruct I as [f [<- If]]. eauto.
Qed.

(** C5 (amended). On a successful run every row of the wide table has
    interprov_net = interprov_in - interprov_out, and the rows are in
    ascending order of quarter.  If no pivoted column's normalized name
    contains "out-migrants" and none is "interprov_out" itself, then
    interprov_out is zero in every row; likewise interprov_in is zero in
    every row if no normalized name contains "in-migrants" and none is
    "interprov_in" itself. *)
Theorem interprov_net_and_defaults :
  forall (float_of : string -> option (option Q)) (df : Frame)
         (long : list LongRow) (wide : Wide),
    clean_interprov_migration float_of df = Some (long, wide) ->
    (forall r, In r (wrows wide) ->
       get "interprov_net" r = osub (get "interprov_in" r) (get "interprov_out" r))
    /\ StronglySorted (fun a b => date_leb (fst a) (fst b) = true) (wrows wide)
    /\ ((forall f, In f (map flow_type long) ->
           PyStr.contains "out-migrants" (norm_col f) = false
           /\ norm_col f <> "interprov_out") ->
        forall r, In r (wrows wide) -> get "interprov_out" r = Some 0%Q)
    /\ ((forall f, In f (map flow_type long) ->
           PyStr.contains "in-migrants" (norm_col f) = false
           /\ norm_col f <> "interprov_in") ->
        forall r, In r (wrows wide) -> get "interprov_in" r = Some 0%Q).
Proof.
  intros fo df long wide H. unfold clean_interprov_migration in H.
  destruct (long_of fo df) as [l|]; [|discriminate].
  destruct (pivot l) as [w0|] eqn:P; [|discriminate].
  destruct (finish_wide w0) as [w|] eqn:F; [|discriminate].
  injection H as <- <-.
  pose proof (pivot_well_formed l w0 P) as W0.
  pose proof (before_net_well_formed w0 W0) as W4.
  rewrite (finish_wide_inv w0 w F). cbn [wrows].
  assert (Rows : forall r,
            In r (sort_values (fun a b => date_leb (fst a) (fst b))
                    (wrows (set_col "interprov_net" net_of (before_net w0)))) ->
            exists r0, In r0 (wrows (before_net w0))
                       /\ get "interprov_net" r = net_of r0
                       /\ forall m, m <> "interprov_net" -> get m r = get m r0).
  { intros r I. apply sort_values_In in I.
    destruct (set_col_rows _ _ _ r W4 I) as [r0 [I0 [_ [E1 E2]]]]. eauto. }
  split; [|split; [|split]].
  - intros r I. destruct (Rows r I) as [r0 [_ [E1 E2]]].
    rewrite E1, !E2 by discriminate. reflexivity.
  - apply sort_values_sorted.
    + intros a b. apply date_leb_total.
    + intros a b c. apply date_leb_trans.
  - intros C r I. destruct (Rows r I) as [r0 [I0 [_ E2]]].
    rewrite E2 by discriminate. unfold before_net in I0.
    eapply default_col_zero; [| |exact I0].
    + now apply default_col_well_formed, rename_well_formed, rename_well_formed.
    + intros X. apply default_col_columns in X; [|discriminate].
      apply renamed_columns in X. destruct X as [f [If Ef]].
      destruct (C f (pivot_columns l w0 f P If)) as [C1 C2].
      unfold canon_col in Ef. rewrite C1 in Ef.
      destruct (PyStr.contains "in-migrants" (norm_col f)); [discriminate | congruence].
  - intros C r I. destruct (Rows r I) as [r0 [I0 [_ E2]]].
    rewrite E2 by discriminate. unfold before_net in I0.
    eapply default_col_other; [| |
      |exact I0].
    + now apply default_col_well_formed, rename_well_formed, rename_well_formed.
    + discriminate.
    + intros r1 I1. eapply default_col_zero; [| |exact I1].
      * now apply rename_well_formed, rename_well_formed.
      * intros X. apply renamed_columns in X. destruct X as [f [If Ef]].
        destruct (C f (pivot_columns l w0 f P If)) as [C1 C2].
        unfold canon_col in Ef. rewrite C1 in Ef.
        destruct (PyStr.contains "out-migrants" (norm_col f)); [discriminate | congruence].
Qed.

Lemma interprov_net_and_defaults_witness :
  get "interprov_net"
    (mkDate 2024 3 31,
     [("interprov_in", Some 1000%Q); ("interprov_out", Some 400%Q);
      ("interprov_net", Some 600%Q)])
  = osub (Some 1000%Q) (Some 400%Q).
Proof.
  exact (proj1 (interprov_net_and_defaults Sample.float_of
                  (mkFrame ["Q1 2024"]
                     [("Units", ["persons"]); ("In-migrants", ["1,000"]);
                      ("Out-migrants", ["400"])])
                  _ _ eq_refl)
           _ (or_introl eq_refl)).
Defined.

(** C5, as stated, fails: with the flow labels "In-migrants" and
    "interprov_out" no normalized column name contains "out-migrants",
    and interprov_out is not zero: it holds the cells of the second
    row. *)
Lemma interprov_out_not_defaulted :
  forallb (fun f => negb (PyStr.contains "out-migrants" (norm_col f)))
    ["In-migrants"; "interprov_out"] = true
  /\ option_map (fun out => (map flow_type (fst out),
                             map (get "interprov_out") (wrows (snd out))))
       (clean_interprov_migration Sample.float_of
          (mkFrame ["Q1 2024"; "Q2 2024"]
             [("Units", ["persons"; "persons"]); ("In-migrants", ["1,000"; "2,000"]);
              ("interprov_out", ["500"; "2,500"])]))
     = Some (["In-migrants"; "interprov_out"; "In-migrants"; "interprov_out"],
             [Some 500%Q; Some 2500%Q]).
Proof. vm_compute. split; reflexivity. Qed.

End InterprovFacts.

(** * Tick labels and tick positions: facts *)

Module PlottingFacts.

Import Plotting.

Lemma digit_char_cases (n : Z) :
  0 <= n <= 9 ->
  PyStr.is_digit (PyFmt.digit_char n) = true
  /\ PyStr.digit_val (PyFmt.digit_char n) = n
  /\ PyStr.is_space (PyFmt.digit_char n) = false
  /\ Ascii.eqb (PyFmt.digit_char n) "Q" = false
  /\ Ascii.eqb (PyFmt.digit_char n) "_" = false.
Proof.
  intros H. rewrite <- (Z2Nat.id n) by lia.
  assert (C : (Z.to_nat n < 10)%nat) by lia.
  revert C. generalize (Z.to_nat n) as m. clear H. intros m C.
  do 10 (destruct m as [|m]; [vm_compute; repeat split|]). lia.
Qed.

Lemma digits_val_app (acc : Z) (a b : string) :
  PyStr.digits_val acc (a ++ b) = PyStr.digits_val (PyStr.digits_val acc a) b.
Proof.
  revert acc. induction a as [|c t IH]; intros acc; simpl; [reflexivity | apply IH].
Qed.

Lemma all_chars_append (p : ascii -> bool) (a b : string) :
  PyStr.all_chars p (a ++ b) = PyStr.all_chars p a && PyStr.all_chars p b.
Proof.
  induction a as [|c t IH]; simpl; [reflexivity|].
  rewrite IH. now rewrite andb_assoc.
Qed.

(** The printed digits: all digits, at least one, and they read back as
    the number. *)
Lemma show_digits_spec (fuel : nat) (n : Z) :
  0 <= n -> (Z.to_nat n < fuel)%nat ->
  PyStr.all_chars PyStr.is_digit (PyFmt.show_digits fuel n) = true
  /\ PyFmt.show_digits fuel n <> EmptyString
  /\ PyStr.digits_val 0 (PyFmt.show_digits fuel n) = n.
Proof.
  revert n. induction fuel as [|f IH]; intros n Hn Hf; [lia|].
  cbn [PyFmt.show_digits]. destruct (Z.ltb_spec n 10) as [L|L].
  - destruct (digit_char_cases n ltac:(lia)) as [D [V _]].
    cbn [PyStr.all_chars PyStr.digits_val]. rewrite D, V.
    split; [reflexivity|]. split; [discriminate | lia].
    
  - assert (Hq : 0 <= n / 10) by (apply Z.div_pos; lia).
    assert (Hlt : n / 10 < n) by (apply Z.div_lt; lia).
    destruct (IH (n / 10) Hq ltac:(lia)) as [A [N V]].
    pose proof (Z.mod_pos_bound n 10 ltac:(lia)) as B.
    destruct (digit_char_cases (n mod 10) ltac:(lia)) as [D [Vd _]].
    rewrite all_chars_append, digits_val_app, A, V.
    cbn [PyStr.all_chars PyStr.digits_val]. rewrite D, Vd.
    split; [reflexivity|]. split.
    + destruct (PyFmt.show_digits f (n / 10)); [now elim N | discriminate].
    + pose proof (Z.div_mod n 10 ltac:(lia)). lia.
Qed.

Lemma show_int_spec (n : Z) :
  0 <= n ->
  PyStr.all_chars PyStr.is_digit (PyFmt.show_int n) = true
  /\ PyFmt.show_int n <> EmptyString
  /\ PyStr.digits_val 0 (PyFmt.show_int n) = n.
Proof.
  intros H. unfold PyFmt.show_int.
  destruct (Z.ltb_spec n 0); [lia|]. apply show_digits_spec; lia.
Qed.

Lemma show_int_inj (a b : Z) :
  0 <= a -> 0 <= b -> PyFmt.show_int a = PyFmt.show_int b -> a = b.
Proof.
  intros Ha Hb E.
  destruct (show_int_spec a Ha) as [_ [_ Va]].
  destruct (show_int_spec b Hb) as [_ [_ Vb]].
  rewrite <- Va, <- Vb. now rewrite E.
Qed.

(** Two runs of digits, each followed by a blank, that start equal
    texts are equal. *)
Lemma digits_blank_inj (a a' b b' : string) :
  PyStr.all_chars PyStr.is_digit a = true ->
  PyStr.all_chars PyStr.is_digit a' = true ->
  a ++ String " " b = a' ++ String " " b' -> a = a' /\ b = b'.
Proof.
  revert a'. induction a as [|c t IH]; intros [|c' t'] Da Da' E; simpl in *.
  - injection E as ->. auto.
  - injection E as <- _. discriminate Da'.
  - injection E as -> _. discriminate Da.
  - injection E as -> E. apply andb_prop in Da, Da'.
    destruct (IH t' (proj2 Da) (proj2 Da') E) as [-> ->]. auto.
Qed.

Lemma quarter_name_inj (y q y' q' : Z) :
  0 <= y -> 0 <= y' -> 0 <= q -> 0 <= q' ->
  ExtraSpec.quarter_name y q = ExtraSpec.quarter_name y' q' -> y = y' /\ q = q'.
Proof.
  intros Hy Hy' Hq Hq' E. unfold ExtraSpec.quarter_name in E.
  destruct (show_int_spec y Hy) as [Dy _].
  destruct (show_int_spec y' Hy') as [Dy' _].
  change (" Q" ++ PyFmt.show_int q) with (String " " (String "Q" (PyFmt.show_int q))) in E.
  change (" Q" ++ PyFmt.show_int q') with (String " " (String "Q" (PyFmt.show_int q'))) in E.
  destruct (digits_blank_inj _ _ _ _ Dy Dy' E) as [Ey Eq].
  injection Eq as Eq. split; apply show_int_inj; auto.
Qed.

(** X1. Two dates get the same tick label exactly when they fall in the
    same quarter of the same year; the label of a [NaT] is the label of
    no date. *)
Theorem quarter_labels_name_quarters :
  forall d1 d2 : Date,
    1 <= month d1 <= 12 -> 1 <= month d2 <= 12 ->
    0 <= year d1 -> 0 <= year d2 ->
    (format_quarter_label (Some d1) = format_quarter_label (Some d2)
     <-> quarter_ord d1 = quarter_ord d2)
    /\ format_quarter_label (Some d1) <> format_quarter_label None.
Proof.
  intros d1 d2 M1 M2 Y1 Y2.
  assert (Q1 : 0 <= (month d1 - 1) / 3 + 1 <= 4)
    by (Z.to_euclidean_division_equations; lia).
  assert (Q2 : 0 <= (month d2 - 1) / 3 + 1 <= 4)
    by (Z.to_euclidean_division_equations; lia).
  split.
  - unfold format_quarter_label. cbv zeta.
    fold (ExtraSpec.quarter_name (year d1) ((month d1 - 1) / 3 + 1)).
    fold (ExtraSpec.quarter_name (year d2) ((month d2 - 1) / 3 + 1)).
    unfold quarter_ord. split.
    + intros E. apply quarter_name_inj in E; try lia.
    + intros E.
      assert (year d1 = year d2 /\ (month d1 - 1) / 3 = (month d2 - 1) / 3)
        as [-> ->]; [|reflexivity].
      Z.to_euclidean_division_equations; lia.
  - unfold format_quarter_label. cbv zeta. intros E.
    destruct (show_int_spec (year d1) Y1) as [D [N _]].
    destruct (PyFmt.show_int (year d1)) as [|c t]; [now elim N|].
    simpl in E, D. injection E as -> _. discriminate D.
Qed.

Lemma quarter_labels_name_quarters_witness :
  format_quarter_label (Some (mkDate 2024 1 31))
  = format_quarter_label (Some (mkDate 2024 3 1)).
Proof.
  apply (proj2 (proj1 (quarter_labels_name_quarters (mkDate 2024 1 31) (mkDate 2024 3 1)
                         ltac:(simpl; lia) ltac:(simpl; lia)
                         ltac:(simpl; lia) ltac:(simpl; lia)))).
  reflexivity.
Defined.

(** X2. The tick label of a row of the quarterly tables names the
    quarter the row stands for: the quarter-end date of quarter number
    [k] (as [resample] dates a bin) is labelled with year [k / 4] and
    quarter [k mod 4 + 1]; and the timestamp the migration cleaner gives
    a quarterly period is the last day of that quarter, labelled with
    the period's year and quarter. *)
Theorem quarter_rows_are_labelled_by_their_quarter :
  (forall k : Z,
      format_quarter_label (Some (quarter_end_of_ord k))
      = ExtraSpec.quarter_name (k / 4) (k mod 4 + 1))
  /\ (forall (p : Migration.Period) (d : Date),
        1 <= Migration.p_quarter p <= 4 ->
        Migration.to_timestamp p = Some d ->
        d = month_end (Migration.p_year p) (3 * Migration.p_quarter p)
        /\ format_quarter_label (Some d)
           = ExtraSpec.quarter_name (Migration.p_year p) (Migration.p_quarter p)).
Proof.
  assert (L : forall k : Z,
             format_quarter_label (Some (quarter_end_of_ord k))
             = ExtraSpec.quarter_name (k / 4) (k mod 4 + 1)).
  { intros k. unfold format_quarter_label, quarter_end_of_ord, month_end,
      ExtraSpec.quarter_name. cbn [year month]. cbv zeta.
    replace ((3 * (k mod 4) + 3 - 1) / 3 + 1) with (k mod 4 + 1); [reflexivity|].
    Z.to_euclidean_division_equations; lia. }
  split; [exact L|].
  intros p d H T. unfold Migration.to_timestamp in T. cbv zeta in T.
  destruct (_ && _) in T; [|discriminate]. injection T as <-.
  assert (Ey : Migration.period_ord p / 4 = Migration.p_year p).
  { unfold Migration.period_ord. symmetry.
    apply Z.div_unique with (r := Migration.p_quarter p - 1); lia. }
  assert (Eq : Migration.period_ord p mod 4 = Migration.p_quarter p - 1).
  { unfold Migration.period_ord. symmetry.
    apply Z.mod_unique with (q := Migration.p_year p); lia. }
  split.
  - unfold quarter_end_of_ord. rewrite Ey, Eq. f_equal. lia.
  - rewrite L, Ey, Eq. f_equal. lia.
Qed.

Lemma quarter_rows_are_labelled_by_their_quarter_witness :
  mkDate 2024 6 30 = month_end 2024 (3 * 2)
  /\ format_quarter_label (Some (mkDate 2024 6 30)) = ExtraSpec.quarter_name 2024 2.
Proof.
  exact (proj2 quarter_rows_are_labelled_by_their_quarter
           (Migration.mkPeriod 2024 2) (mkDate 2024 6 30)
           ltac:(simpl; lia) eq_refl).
Defined.


(** ** Tick positions *)

Lemma range_from_stop (fuel i stop step : nat) :
  (stop <= i)%nat -> range_from fuel i stop step = [].
Proof.
  intros H. destruct fuel; [reflexivity|]. simpl.
  destruct (Nat.ltb_spec i stop); [lia | reflexivity].
Qed.

Lemma range_from_bound (fuel i stop step : nat) (x : nat) :
  In x (range_from fuel i stop step) -> (i <= x < stop)%nat.
Proof.
  revert i. induction fuel as [|f IH]; intros i; simpl; [tauto|].
  destruct (Nat.ltb_spec i stop); [|simpl; tauto].
  intros [<-|I]; [lia|]. apply IH in I. lia.
Qed.

(** The last index of the range is below the stop. *)
Lemma range_from_length (fuel i stop step : nat) :
  (1 <= step)%nat -> (i < stop)%nat -> (stop - i <= fuel)%nat ->
  let c := List.length (range_from fuel i stop step) in
  (1 <= c)%nat /\ ((c - 1) * step < stop - i)%nat.
Proof.
  intros Hs. revert i. induction fuel as [|f IH]; intros i Hi Hf; [lia|].
  cbn [range_from]. destruct (Nat.ltb_spec i stop); [|lia].
  cbn [List.length]. cbv zeta.
  destruct (Nat.lt_ge_cases (i + step) stop) as [L|G].
  - destruct (IH (i + step)%nat L ltac:(lia)) as [C1 C2]. split; [lia|]. nia.
  - rewrite (range_from_stop f (i + step) stop step G). simpl. lia.
Qed.

Lemma range_from_one (fuel i stop : nat) :
  (stop - i <= fuel)%nat -> range_from fuel i stop 1 = seq i (stop - i).
Proof.
  revert i. induction fuel as [|f IH]; intros i H.
  - replace (stop - i)%nat with 0%nat by lia. reflexivity.
  - simpl. destruct (Nat.ltb_spec i stop).
    + replace (stop - i)%nat with (S (stop - (i + 1)))%nat by lia.
      simpl. f_equal. replace (S i) with (i + 1)%nat by lia. apply IH. lia.
    + replace (stop - i)%nat with 0%nat by lia. reflexivity.
Qed.

Lemma nth_all {A : Type} (l : list A) (d : A) :
  map (fun i => nth i l d) (seq 0 (List.length l)) = l.
Proof.
  induction l as [|x t IH]; [reflexivity|].
  cbn [List.length seq map nth]. f_equal.
  rewrite <- seq_shift, map_map. exact IH.
Qed.

Lemma tick_indices_valid (n : nat) (max_ticks : Z) (idxs : list nat) (i : nat) :
  tick_indices n max_ticks = Some idxs -> In i idxs -> (i < n)%nat.
Proof.
  unfold tick_indices. destruct (Z.of_nat n <=? max_ticks).
  - intros E I. injection E as <-. apply in_seq in I. lia.
  - destruct (max_ticks =? 0); [discriminate|].
    intros E I. injection E as <-. apply range_from_bound in I. lia.
Qed.

(** X3. With a positive [max_ticks] the ticks are dates of the series,
    labelled by [_format_quarter_labels], and the first date is a tick.
    Every date is a tick as long as there are fewer than twice
    [max_ticks] dates, so more than [max_ticks] ticks are drawn for
    series of that size; there are never more than
    [2 * max_ticks - 1] ticks.  With [max_ticks = 0] and a date to plot
    the floor division raises. *)
Theorem quarter_ticks_count :
  forall (x_dates : list (option Date)) (max_ticks : Z),
    (1 <= max_ticks ->
     exists ticks,
       apply_quarter_ticks x_dates max_ticks = Some (ticks, format_quarter_labels ticks)
       /\ incl ticks x_dates
       /\ hd_error ticks = hd_error x_dates
       /\ Z.of_nat (List.length ticks) <= 2 * max_ticks - 1
       /\ (Z.of_nat (List.length x_dates) < 2 * max_ticks -> ticks = x_dates))
    /\ (max_ticks = 0 -> x_dates <> [] -> apply_quarter_ticks x_dates max_ticks = None).
Proof.
  intros l m. split.
  - intros Hm. unfold apply_quarter_ticks.
    destruct (tick_indices (List.length l) m) as [idxs|] eqn:T.
    2:{ unfold tick_indices in T. destruct (Z.of_nat (List.length l) <=? m); [discriminate|].
        destruct (Z.eqb_spec m 0); [lia | discriminate]. }
    eexists. split; [reflexivity|]. split; [|split; [|split]].
    + intros x I. apply in_map_iff in I. destruct I as [i [<- I]].
      apply nth_In. eapply tick_indices_valid; eauto.
    + unfold tick_indices in T. destruct (Z.leb_spec (Z.of_nat (List.length l)) m).
      * injection T as <-. now rewrite nth_all.
      * destruct (m =? 0); [discriminate|]. injection T as <-.
        destruct l as [|x t]; [simpl in *; lia|]. reflexivity.
    + rewrite length_map. unfold tick_indices in T.
      destruct (Z.leb_spec (Z.of_nat (List.length l)) m).
      * injection T as <-. rewrite length_seq. lia.
      * destruct (m =? 0); [discriminate|]. injection T as <-.
        set (n := List.length l) in *.
        set (s := Z.to_nat (Z.max 1 (Z.of_nat n / m))).
        assert (Hd : 1 <= Z.of_nat n / m) by (apply Z.div_le_lower_bound; lia).
        assert (Es : Z.of_nat s = Z.of_nat n / m) by (unfold s; lia).
        destruct (range_from_length n 0 n s ltac:(lia) ltac:(lia) ltac:(lia)) as [C1 C2].
        unfold range_step. set (c := List.length (range_from n 0 n s)) in *.
        pose proof (Z.mul_div_le (Z.of_nat n) m ltac:(lia)) as Lo.
        pose proof (Z.mul_succ_div_gt (Z.of_nat n) m ltac:(lia)) as Hi.
        rewrite <- Es in Lo, Hi. nia.
    + intros H2. unfold tick_indices in T.
      destruct (Z.leb_spec (Z.of_nat (List.length l)) m).
      * injection T as <-. apply nth_all.
      * destruct (m =? 0); [discriminate|]. injection T as <-.
        assert (Hd : Z.of_nat (List.length l) / m = 1).
        { symmetry. apply Z.div_unique with (r := Z.of_nat (List.length l) - m); lia. }
        rewrite Hd. change (Z.to_nat (Z.max 1 1)) with 1%nat.
        unfold range_step. rewrite range_from_one by lia.
        rewrite Nat.sub_0_r. apply nth_all.
  - intros -> N. unfold apply_quarter_ticks, tick_indices.
    destruct l as [|x t]; [now elim N|].
    destruct (Z.leb_spec (Z.of_nat (List.length (x :: t))) 0); [simpl in *; lia|].
    reflexivity.
Qed.

Lemma quarter_ticks_count_witness :
  apply_quarter_ticks [Some (mkDate 2024 3 31); Some (mkDate 2024 6 30);
                       Some (mkDate 2024 9 30)] 0
  = None.
Proof.
  exact (proj2 (quarter_ticks_count
                  [Some (mkDate 2024 3 31); Some (mkDate 2024 6 30); Some (mkDate 2024 9 30)] 0)
           eq_refl ltac:(discriminate)).
Defined.

End PlottingFacts.

(** * Change events: more facts *)

Module ChangeEventFacts.

Import PolicyRate.
Local Open Scope list_scope.

Lemma boc_changes_from (daily : list Row) :
  boc_changes daily = PolicyRateSpec.changes_from None daily.
Proof. unfold boc_changes, shift1. apply PolicyRateFacts.loc_mask_from. Qed.

Lemma last_opt_nonempty {A : Type} (x : A) (t : list A) :
  exists z, last_opt (x :: t) = Some z.
Proof.
  revert x. induction t as [|y u IH]; intros x; [now exists x|].
  destruct (IH y) as [z E]. exists z. exact E.
Qed.

Lemma changes_from_app (p : option Q) (l1 l2 : list Row) :
  PolicyRateSpec.changes_from p (l1 ++ l2)
  = PolicyRateSpec.changes_from p l1 ++ PolicyRateSpec.changes_from (ExtraSpec.last_rate p l1) l2.
Proof.
  revert p. induction l1 as [|x t IH]; intros p; [reflexivity|].
  cbn [app PolicyRateSpec.changes_from]. rewrite IH.
  assert (E : ExtraSpec.last_rate (Some (policy_rate_pct x)) t = ExtraSpec.last_rate p (x :: t)).
  { unfold ExtraSpec.last_rate. destruct t as [|y u]; [reflexivity|].
    change (last_opt (x :: y :: u)) with (last_opt (y :: u)).
    destruct (last_opt_nonempty y u) as [z ->]. reflexivity. }
  rewrite E. now destruct (rate_ne p (policy_rate_pct x)).
Qed.

Lemma rates_alternate_eq (p p' : Q) (l : list Row) :
  Qeq_bool p p' = true -> ExtraSpec.rates_alternate p' l -> ExtraSpec.rates_alternate p l.
Proof.
  destruct l as [|c t]; [trivial|]. simpl. intros E [N A]. split; [|exact A].
  destruct (Qeq_bool p (policy_rate_pct c)) eqn:X; [|reflexivity].
  apply Qeq_bool_iff in E, X.
  assert (Y : Qeq_bool p' (policy_rate_pct c) = true).
  { apply Qeq_bool_iff. now rewrite <- E. }
  congruence.
Qed.

Lemma changes_from_alternate (p : Q) (l : list Row) :
  ExtraSpec.rates_alternate p (PolicyRateSpec.changes_from (Some p) l).
Proof.
  revert p. induction l as [|x t IH]; intros p; [exact I|].
  cbn [PolicyRateSpec.changes_from rate_ne].
  destruct (Qeq_bool p (policy_rate_pct x)) eqn:E; cbn [negb].
  - eapply rates_alternate_eq; eauto.
  - split; [exact E | apply IH].
Qed.

(** The rate of the last kept row is the rate of the last row. *)
Lemma changes_from_tracks (p : Q) (l : list Row) (r : Row) :
  last_opt l = Some r ->
  match last_opt (PolicyRateSpec.changes_from (Some p) l) with
  | Some c => (policy_rate_pct c == policy_rate_pct r)%Q
  | None => (p == policy_rate_pct r)%Q
  end.
Proof.
  revert p. induction l as [|x t IH]; intros p L; [discriminate|].
  cbn [PolicyRateSpec.changes_from rate_ne].
  destruct t as [|y u].
  - injection L as <-. cbn [PolicyRateSpec.changes_from].
    destruct (Qeq_bool p (policy_rate_pct x)) eqn:E; cbn [negb last_opt].
    + now apply Qeq_bool_iff.
    + reflexivity.
  - change (last_opt (x :: y :: u)) with (last_opt (y :: u)) in L.
    specialize (IH (policy_rate_pct x) L).
    destruct (Qeq_bool p (policy_rate_pct x)) eqn:E; cbn [negb].
    + destruct (last_opt (PolicyRateSpec.changes_from (Some (policy_rate_pct x)) (y :: u)));
        [exact IH|].
      apply Qeq_bool_iff in E. now rewrite E.
    + cbn [last_opt].
      destruct (PolicyRateSpec.changes_from (Some (policy_rate_pct x)) (y :: u))
        as [|r0 l] eqn:C; [exact IH|].
      destruct (last_opt_nonempty r0 l) as [z Ez]. rewrite Ez in *. exact IH.
Qed.

(** X4. No two consecutive change events carry the same rate, and the
    change events tell the rate of every day: for every daily row, the
    change events up to that row are the first rows of the change-events
    table, and the last of them carries the rate of that row. *)
Theorem change_events_track_the_rate :
  forall daily : list Row,
    ExtraSpec.neighbours_differ (boc_changes daily)
    /\ (forall pre r post,
          daily = pre ++ r :: post ->
          exists c rest,
            last_opt (boc_changes (pre ++ [r])) = Some c
            /\ (policy_rate_pct c == policy_rate_pct r)%Q
            /\ boc_changes daily = boc_changes (pre ++ [r]) ++ rest).
Proof.
  intros daily. split.
  - rewrite boc_changes_from. destruct daily as [|x t]; [exact I|].
    cbn [PolicyRateSpec.changes_from rate_ne ExtraSpec.neighbours_differ].
    apply changes_from_alternate.
  - intros pre r post ->. rewrite !boc_changes_from.
    assert (L : last_opt (pre ++ [r]) = Some r).
    { induction pre as [|a u IH]; [reflexivity|].
      cbn [app last_opt]. destruct (u ++ [r]) eqn:E; [|exact IH].
      destruct u; discriminate. }
    assert (T : exists c, last_opt (PolicyRateSpec.changes_from None (pre ++ [r])) = Some c
                          /\ (policy_rate_pct c == policy_rate_pct r)%Q).
    { destruct (pre ++ [r]) as [|x t] eqn:E; [discriminate|].
      cbn [PolicyRateSpec.changes_from rate_ne].
      destruct t as [|y u].
      - injection L as <-. exists x. split; reflexivity.
      - change (last_opt (x :: y :: u)) with (last_opt (y :: u)) in L.
        pose proof (changes_from_tracks (policy_rate_pct x) (y :: u) r L) as K.
        cbn [last_opt].
        destruct (PolicyRateSpec.changes_from (Some (policy_rate_pct x)) (y :: u)) eqn:C.
        + exists x. split; [reflexivity | exact K].
        + destruct (last_opt_nonempty r0 l) as [z Ez]. rewrite Ez in *.
          exists z. split; [reflexivity | exact K]. }
    destruct T as [c [Lc Ec]]. exists c.
    replace (pre ++ r :: post) with ((pre ++ [r]) ++ post)
      by (rewrite <- app_assoc; reflexivity).
    rewrite (changes_from_app None (pre ++ [r]) post).
    eexists. split; [exact Lc|]. split; [exact Ec | reflexivity].
Qed.

Lemma change_events_track_the_rate_witness :
  exists c rest,
    last_opt (boc_changes [mkRow (mkDate 2024 1 1) 5; mkRow (mkDate 2024 1 2) 5]) = Some c
    /\ (policy_rate_pct c == 5)%Q
    /\ boc_changes [mkRow (mkDate 2024 1 1) 5; mkRow (mkDate 2024 1 2) 5;
                    mkRow (mkDate 2024 1 3) (21 # 4)]
       = boc_changes [mkRow (mkDate 2024 1 1) 5; mkRow (mkDate 2024 1 2) 5] ++ rest.
Proof.
  exact (proj2 (change_events_track_the_rate
                  [mkRow (mkDate 2024 1 1) 5; mkRow (mkDate 2024 1 2) 5;
                   mkRow (mkDate 2024 1 3) (21 # 4)])
           [mkRow (mkDate 2024 1 1) 5] (mkRow (mkDate 2024 1 2) 5)
           [mkRow (mkDate 2024 1 3) (21 # 4)] eq_refl).
Defined.

End ChangeEventFacts.

(** * Quarter and month labels: facts *)

Module LabelFacts.

Local Open Scope list_scope.

Lemma digit_char_facts (c : ascii) :
  PyStr.is_digit c = true ->
  PyStr.is_space c = false /\ Ascii.eqb c "_" = false /\ Ascii.eqb c "Q" = false
  /\ Ascii.eqb c "+" = false /\ Ascii.eqb c "-" = false
  /\ 0 <= PyStr.digit_val c <= 9.
Proof.
  destruct c as [[] [] [] [] [] [] [] []]; intros H; try discriminate H;
    vm_compute; repeat split; discriminate.
Qed.

Lemma list_of_append (a b : string) :
  list_ascii_of_string (a ++ b)%string = list_ascii_of_string a ++ list_ascii_of_string b.
Proof. induction a as [|c t IH]; simpl; congruence. Qed.

Lemma all_chars_In (p : ascii -> bool) (s : string) (c : ascii) :
  PyStr.all_chars p s = true -> In c (list_ascii_of_string s) -> p c = true.
Proof.
  induction s as [|d t IH]; simpl; [tauto|].
  intros H [<-|I]; apply andb_prop in H; [tauto | now apply IH].
Qed.

Lemma rev_string_involutive (s : string) : PyStr.rev_string (PyStr.rev_string s) = s.
Proof.
  unfold PyStr.rev_string.
  now rewrite list_ascii_of_string_of_list_ascii, rev_involutive,
    string_of_list_ascii_of_string.
Qed.

(** A text that neither starts nor ends with white space is its own
    [strip]. *)
Lemma strip_trimmed (c : ascii) (t : string) :
  PyStr.is_space c = false ->
  PyStr.is_space (last (list_ascii_of_string (String c t)) c) = false ->
  PyStr.strip (String c t) = String c t.
Proof.
  intros Hc Hl. unfold PyStr.strip.
  assert (E1 : PyStr.lstrip (String c t) = String c t) by (simpl; now rewrite Hc).
  rewrite E1.
  assert (E2 : PyStr.lstrip (PyStr.rev_string (String c t)) = PyStr.rev_string (String c t)).
  { unfold PyStr.rev_string.
    destruct (exists_last (l := list_ascii_of_string (String c t)) ltac:(discriminate))
      as [u [z E]].
    rewrite E in *. rewrite last_last in Hl. rewrite rev_app_distr. simpl. now rewrite Hl. }
  rewrite E2. apply rev_string_involutive.
Qed.

Lemma last_app_nonempty {A : Type} (a b : list A) (d : A) :
  b <> [] -> last (a ++ b) d = last b d.
Proof.
  intros N. induction a as [|x t IH]; [reflexivity|].
  simpl. destruct (t ++ b) eqn:E; [|exact IH].
  apply app_eq_nil in E. destruct E. contradiction.
Qed.

Lemma digits_end_list (pre : list ascii) (d : string) (c : ascii) :
  PyStr.all_chars PyStr.is_digit d = true -> d <> EmptyString ->
  PyStr.is_space (last (pre ++ list_ascii_of_string d) c) = false.
Proof.
  intros D N.
  assert (Nl : list_ascii_of_string d <> []) by (destruct d; [now elim N | discriminate]).
  rewrite last_app_nonempty by exact Nl.
  apply digit_char_facts. eapply all_chars_In; [exact D|].
  now apply PolicyRateFacts.last_In.
Qed.

Lemma digits_end_trimmed (a d : string) (c : ascii) :
  PyStr.all_chars PyStr.is_digit d = true -> d <> EmptyString ->
  PyStr.is_space (last (list_ascii_of_string (a ++ d)%string) c) = false.
Proof. intros D N. rewrite list_of_append. now apply digits_end_list. Qed.

Lemma split_from_word (w cur rest : list ascii) :
  (forall c, In c w -> PyStr.is_space c = false) ->
  PyStr.split_from cur (w ++ rest) = PyStr.split_from (rev w ++ cur) rest.
Proof.
  revert cur. induction w as [|c t IH]; intros cur H; [reflexivity|].
  cbn [app PyStr.split_from]. rewrite (H c) by now left.
  rewrite IH by (intros; apply H; now right).
  cbn [rev]. now rewrite <- app_assoc.
Qed.

(** Two words with a blank between them split into the two words. *)
Lemma split_two_words (a b : string) :
  a <> EmptyString -> b <> EmptyString ->
  (forall c, In c (list_ascii_of_string a) -> PyStr.is_space c = false) ->
  (forall c, In c (list_ascii_of_string b) -> PyStr.is_space c = false) ->
  PyStr.split (a ++ String " " b)%string = [a; b].
Proof.
  intros Na Nb Ha Hb. unfold PyStr.split.
  rewrite list_of_append. cbn [list_ascii_of_string].
  rewrite split_from_word by exact Ha. rewrite app_nil_r.
  cbn [PyStr.split_from]. change (PyStr.is_space " ") with true. cbv iota.
  destruct (rev (list_ascii_of_string a)) as [|z u] eqn:R.
  { apply (f_equal (@rev ascii)) in R. rewrite rev_involutive in R.
    destruct a; [now elim Na | discriminate]. }
  rewrite <- R, rev_involutive, string_of_list_ascii_of_string. f_equal.
  rewrite <- (app_nil_r (list_ascii_of_string b)).
  rewrite split_from_word by exact Hb. rewrite app_nil_r.
  cbn [PyStr.split_from].
  destruct (rev (list_ascii_of_string b)) as [|z' u'] eqn:R'.
  { apply (f_equal (@rev ascii)) in R'. rewrite rev_involutive in R'.
    destruct b; [now elim Nb | discriminate]. }
  now rewrite <- R', rev_involutive, string_of_list_ascii_of_string.
Qed.

Lemma int_body_digits (s : string) :
  PyStr.all_chars PyStr.is_digit s = true -> PyStr.int_body true s = true.
Proof.
  induction s as [|c t IH]; [reflexivity|]. simpl. intros H.
  apply andb_prop in H. destruct H as [Hc Ht]. rewrite Hc. now apply IH.
Qed.

Lemma remove_all_digits (x : ascii) (s : string) :
  (forall c, PyStr.is_digit c = true -> Ascii.eqb c x = false) ->
  PyStr.all_chars PyStr.is_digit s = true -> PyStr.remove_all x s = s.
Proof.
  intros Hx. induction s as [|c t IH]; [reflexivity|]. simpl. intros H.
  apply andb_prop in H. destruct H as [Hc Ht]. rewrite (Hx c Hc). now rewrite IH.
Qed.

(** [int] reads a run of digits as its value. *)
Lemma int_of_digits (s : string) :
  PyStr.all_chars PyStr.is_digit s = true -> s <> EmptyString ->
  PyStr.int s = Some (PyStr.digits_val 0 s).
Proof.
  intros D N. destruct s as [|c t]; [now elim N|].
  assert (Dc : PyStr.is_digit c = true) by (simpl in D; apply andb_prop in D; tauto).
  assert (Dt : PyStr.all_chars PyStr.is_digit t = true)
    by (simpl in D; apply andb_prop in D; tauto).
  unfold PyStr.int. rewrite strip_trimmed.
  - assert (U : PyStr.unsigned_int (String c t) = Some (PyStr.digits_val 0 (String c t))).
    { unfold PyStr.unsigned_int. cbn [PyStr.int_body]. rewrite Dc.
      rewrite (int_body_digits t Dt).
      rewrite (remove_all_digits "_" (String c t)); [reflexivity | | exact D].
      intros x Hx. now apply digit_char_facts. }
    destruct (digit_char_facts c Dc) as [_ [_ [_ [Hp [Hm _]]]]].
    destruct c as [[] [] [] [] [] [] [] []]; try discriminate Hp; try discriminate Hm;
      exact U.
  - now apply digit_char_facts.
  - change (String c t) with (EmptyString ++ String c t)%string.
    now apply digits_end_trimmed.
Qed.

Lemma int_of_show (n : Z) : 0 <= n -> PyStr.int (PyFmt.show_int n) = Some n.
Proof.
  intros H. destruct (PlottingFacts.show_int_spec n H) as [D [N V]].
  rewrite int_of_digits by assumption. now rewrite V.
Qed.

Lemma valid_quarter_end (y q : Z) :
  1 <= q <= 4 -> valid_date (month_end y (3 * q)) = true.
Proof.
  intros H. assert (C : q = 1 \/ q = 2 \/ q = 3 \/ q = 4) by lia.
  destruct C as [-> | [-> | [-> | ->]]]; reflexivity.
Qed.

(** X5. Whatever label [to_q_end] accepts, the date it returns is the
    last day of March, June, September or December: the label has two
    words, and its quarter number is between 1 and 4. *)
Theorem to_q_end_gives_quarter_ends :
  forall (lbl : string) (d : Date),
    Interprov.to_q_end lbl = Some d ->
    exists a b q,
      PyStr.split (PyStr.strip lbl) = [a; b]
      /\ PyStr.int (PyStr.remove_all "Q" a) = Some q
      /\ PyStr.int b = Some (year d)
      /\ 1 <= q <= 4
      /\ d = month_end (year d) (3 * q)
      /\ valid_date d = true.
Proof.
  intros lbl d. unfold Interprov.to_q_end.
  destruct (PyStr.split (PyStr.strip lbl)) as [|a [|b [|]]] eqn:S; try discriminate.
  destruct (PyStr.int (PyStr.remove_all "Q" a)) as [q|] eqn:Iq; [|discriminate].
  destruct (PyStr.int b) as [y|] eqn:Iy; [|discriminate].
  cbv zeta. destruct (_ && _) eqn:C; [|discriminate].
  intros E. injection E as <-.
  rewrite !andb_true_iff, !Z.leb_le in C. destruct C as [[[C1 C2] C3] C4].
  exists a, b, q. cbn [year month_end].
  replace (q * 3) with (3 * q) by lia.
  split; [reflexivity|]. split; [exact Iq|]. split; [exact Iy|].
  split; [lia|]. split; [reflexivity|]. apply valid_quarter_end. lia.
Qed.

Lemma to_q_end_gives_quarter_ends_witness :
  exists a b q,
    PyStr.split (PyStr.strip " Q3  2021 ") = [a; b]
    /\ PyStr.int (PyStr.remove_all "Q" a) = Some q
    /\ PyStr.int b = Some (year (mkDate 2021 9 30))
    /\ 1 <= q <= 4
    /\ mkDate 2021 9 30 = month_end (year (mkDate 2021 9 30)) (3 * q)
    /\ valid_date (mkDate 2021 9 30) = true.
Proof.
  exact (to_q_end_gives_quarter_ends " Q3  2021 " (mkDate 2021 9 30) eq_refl).
Defined.

(** X6. The column label of quarter [q] of year [y], written "Q<q> <y>"
    as the docstring gives it, is read as the last day of that quarter. *)
Theorem to_q_end_reads_quarter_columns :
  forall q y : Z,
    1 <= q <= 4 -> 1 <= y <= 9999 ->
    Interprov.to_q_end (ExtraSpec.quarter_column q y) = Some (month_end y (3 * q)).
Proof.
  intros q y Hq Hy.
  destruct (PlottingFacts.show_int_spec q ltac:(lia)) as [Dq [Nq _]].
  destruct (PlottingFacts.show_int_spec y ltac:(lia)) as [Dy [Ny _]].
  unfold Interprov.to_q_end, ExtraSpec.quarter_column.
  change ("Q" ++ PyFmt.show_int q ++ " " ++ PyFmt.show_int y)%string
    with (String "Q" (PyFmt.show_int q ++ String " " (PyFmt.show_int y)))%string.
  rewrite strip_trimmed.
  - change (String "Q" (PyFmt.show_int q ++ String " " (PyFmt.show_int y)))%string
      with (String "Q" (PyFmt.show_int q) ++ String " " (PyFmt.show_int y))%string.
    rewrite split_two_words.
    + cbn [PyStr.remove_all]. change (Ascii.eqb "Q" "Q") with true. cbv iota.
      rewrite (remove_all_digits "Q" (PyFmt.show_int q));
        [|intros c Hc; now apply digit_char_facts | exact Dq].
      rewrite !int_of_show by lia. cbv zeta.
      replace ((1 <=? q * 3) && (q * 3 <=? 12) && (1 <=? y) && (y <=? 9999)) with true
        by (symmetry; repeat (apply andb_true_intro; split); lia).
      f_equal. f_equal. lia.
    + discriminate.
    + exact Ny.
    + intros c [<-|I]; [reflexivity|].
      apply digit_char_facts. exact (all_chars_In _ _ c Dq I).
    + intros c I. apply digit_char_facts. exact (all_chars_In _ _ c Dy I).
  - reflexivity.
  - cbn [list_ascii_of_string]. rewrite list_of_append. cbn [list_ascii_of_string].
    change ("Q"%char :: list_ascii_of_string (PyFmt.show_int q)
            ++ " "%char :: list_ascii_of_string (PyFmt.show_int y))
      with (("Q"%char :: list_ascii_of_string (PyFmt.show_int q))
            ++ [" "%char] ++ list_ascii_of_string (PyFmt.show_int y)).
    rewrite app_assoc. now apply digits_end_list.
Qed.

Lemma to_q_end_reads_quarter_columns_witness :
  Interprov.to_q_end (ExtraSpec.quarter_column 2 2024) = Some (month_end 2024 (3 * 2)).
Proof.
  exact (to_q_end_reads_quarter_columns 2 2024 ltac:(lia) ltac:(lia)).
Defined.


(** ** Month labels of the housing-starts file *)

Lemma strptime_fields_year (s : string) (dt : Date) :
  HousingStarts.strptime_fields s = Some dt -> 1969 <= year dt <= 2068.
Proof.
  unfold HousingStarts.strptime_fields. intros F.
  destruct s as [|a [|b [|c [|m1 s]]]]; try discriminate F.
  destruct m1 as [[] [] [] [] [] [] [] []]; try discriminate F.
  destruct s as [|y1 [|y2 [|m2 d]]]; try discriminate F.
  destruct m2 as [[] [] [] [] [] [] [] []]; try discriminate F.
  destruct (HousingStarts.month_of_abbrev _) as [m|]; [|discriminate F].
  destruct (HousingStarts.day_of d) as [dd|]; [|discriminate F].
  destruct (PyStr.is_digit y1) eqn:D1; [|discriminate F].
  destruct (PyStr.is_digit y2) eqn:D2; [|discriminate F].
  destruct (digit_char_facts y1 D1) as [_ [_ [_ [_ [_ B1]]]]].
  destruct (digit_char_facts y2 D2) as [_ [_ [_ [_ [_ B2]]]]].
  cbn [andb] in F. cbv zeta in F.
  remember (PyStr.digit_val y1) as v1. remember (PyStr.digit_val y2) as v2.
  assert (Y : forall yr, yr = (if 10 * v1 + v2 <? 69 then 2000 + (10 * v1 + v2)
                               else 1900 + (10 * v1 + v2)) ->
                         1969 <= yr <= 2068).
  { intros yr ->. destruct (Z.ltb_spec (10 * v1 + v2) 69); lia. }
  match type of F with
  | Some (mkDate ?yr _ _) = _ => pose proof (Y yr eq_refl) as R; clear Y
  end.
  injection F as <-. exact R.
Qed.

(** X7. Every month label the housing-starts cleaner can date gets the
    last day of a month between 1969 and 2068: a two-digit year below 69
    is read as 20yy and one from 69 on as 19yy, so "Jan-68" is dated
    2068-01-31 and "Jan-69" 1969-01-31. *)
Theorem housing_label_dates :
  (forall (label : string) (d : Date),
      HousingStarts.label_date label = Some d ->
      valid_date d = true
      /\ d = month_end (year d) (month d)
      /\ 1969 <= year d <= 2068)
  /\ HousingStarts.label_date "Jan-68" = Some (mkDate 2068 1 31)
  /\ HousingStarts.label_date "Jan-69" = Some (mkDate 1969 1 31).
Proof.
  split; [|split; reflexivity].
  intros label d. unfold HousingStarts.label_date, HousingStarts.strptime_b_y_d.
  destruct (HousingStarts.strptime_fields (label ++ "-01")%string) as [dt|] eqn:F;
    [|discriminate].
  destruct (valid_date dt) eqn:V; [|discriminate].
  cbn [option_map]. intros E. injection E as <-. cbn [year month].
  split; [|split; [reflexivity | exact (strptime_fields_year _ _ F)]].
  unfold valid_date in *. cbn [year month day month_end].
  rewrite !andb_true_iff in V. destruct V as [[[V1 V2] _] _].
  rewrite V1, V2. cbn [andb]. rewrite Z.leb_refl, andb_true_r.
  apply Z.leb_le. unfold days_in_month.
  destruct (month dt =? 2); [destruct (is_leap (year dt)); lia|].
  destruct (_ || _); lia.
Qed.

Lemma housing_label_dates_witness :
  valid_date (mkDate 2024 2 29) = true
  /\ mkDate 2024 2 29 = month_end (year (mkDate 2024 2 29)) (month (mkDate 2024 2 29))
  /\ 1969 <= year (mkDate 2024 2 29) <= 2068.
Proof.
  exact (proj1 housing_label_dates "feb-24" (mkDate 2024 2 29) eq_refl).
Defined.

End LabelFacts.

(** * Sizes and failures of the migration cleaners: facts *)

Module TableFacts.

Local Open Scope list_scope.

Import Migration.

Lemma existsb_none {A : Type} (f : A -> bool) (l : list A) :
  existsb f l = false <-> forall c, In c l -> f c = false.
Proof.
  induction l as [|a t IH]; simpl; [split; [tauto | reflexivity]|].
  rewrite orb_false_iff, IH. split.
  - intros [Ha Ht] c [<-|I]; auto.
  - intros H. split; [apply H; now left | intros c I; apply H; now right].
Qed.

Lemma str_accessor_no_text {A : Type} (is_text : A -> bool) (col : list A) :
  str_accessor_ok is_text col = false <-> MigrationSpec.no_text is_text col.
Proof.
  unfold MigrationSpec.no_text. destruct col as [|a t].
  - simpl. split; [discriminate | intros [N _]; now elim N].
  - change (str_accessor_ok is_text (a :: t)) with (existsb is_text (a :: t)).
    rewrite existsb_none. split; [intros H; split; [discriminate | exact H] | tauto].
Qed.

Lemma quarter_of_None (period_of : string -> option (option Period))
  (c : option string) :
  quarter_of period_of c = None
  <-> exists s, c = Some s /\ MigrationSpec.undatable period_of s.
Proof.
  unfold quarter_of, MigrationSpec.undatable. destruct c as [s|].
  - destruct (period_of (q_as_period s)) as [[p|]|] eqn:E.
    + destruct (to_timestamp p) as [d|] eqn:T; simpl.
      * split; [discriminate|]. intros [s' [Es [N | [p' [Ep N]]]]];
          injection Es as <-; congruence.
      * split; [|reflexivity]. intros _. exists s. split; [reflexivity|].
        right. exists p. rewrite E. auto.
    + split; [discriminate|]. intros [s' [Es [N | [p' [Ep N]]]]];
        injection Es as <-; congruence.
    + split; [|reflexivity]. intros _. exists s. split; [reflexivity|].
      left. exact E.
  - split; [discriminate|]. intros [s [Es _]]. discriminate Es.
Qed.

(** X8. The international-migration cleaner raises exactly when the
    file has rows and its reference-period column holds no text, or one
    of its three count columns holds placeholders only, or some
    reference period cannot be dated (it is no quarterly period, or its
    quarter lies outside the range of timestamps).  Otherwise the wide
    table has one row per row of the file, its quarters are the quarters
    of the file's rows (absent for a row without reference period) in
    ascending order with the absent ones last, and the long table has
    four rows per wide row, all of geography Alberta. *)
Theorem migration_all_or_nothing :
  forall (period_of : string -> option (option Period))
         (to_numeric : string -> option Q) (df : list RawRow),
    (clean_international_migration period_of to_numeric df = None
     <-> MigrationSpec.no_text has_text (map reference_period df)
         \/ MigrationSpec.no_text (fun s => negb (is_placeholder s))
              (map immigrants_cell df)
         \/ MigrationSpec.no_text (fun s => negb (is_placeholder s))
              (map net_emigration_cell df)
         \/ MigrationSpec.no_text (fun s => negb (is_placeholder s))
              (map net_non_permanent_residents_cell df)
         \/ exists r s, In r df /\ reference_period r = Some s
                        /\ MigrationSpec.undatable period_of s)
    /\ (forall wide long,
          clean_international_migration period_of to_numeric df = Some (wide, long) ->
          List.length wide = List.length df
          /\ Permutation (map (fun w => Some (quarter w)) wide)
               (map (fun r => quarter_of period_of (reference_period r)) df)
          /\ StronglySorted (fun a b => odate_leb a b = true) (map quarter wide)
          /\ List.length long = (4 * List.length wide)%nat
          /\ (forall l, In l long -> geo l = "Alberta"%string)).
Proof.
  intros po tn df. split.
  - unfold clean_international_migration, mig_quarterly_wide, columns_ok,
      count_column_ok.
    rewrite <- !str_accessor_no_text.
    destruct (str_accessor_ok has_text (map reference_period df));
      [|split; [auto | reflexivity]].
    destruct (str_accessor_ok _ (map immigrants_cell df));
      [|split; [auto | reflexivity]].
    destruct (str_accessor_ok _ (map net_emigration_cell df));
      [|split; [auto | reflexivity]].
    destruct (str_accessor_ok _ (map net_non_permanent_residents_cell df));
      [|split; [auto 6 | reflexivity]].
    cbn [andb].
    destruct (all_some (map (clean_row po tn) df)) as [l|] eqn:E; simpl.
    + split; [discriminate|].
      intros [X|[X|[X|[X|[r [s [I [Er U]]]]]]]]; try discriminate X.
      assert (X : all_some (map (clean_row po tn) df) = None).
      { apply all_some_None. exists r. split; [exact I|]. unfold clean_row.
        replace (quarter_of po (reference_period r)) with (@None (option Date));
          [reflexivity|].
        symmetry. apply quarter_of_None. exists s. auto. }
      congruence.
    + split; [|reflexivity]. intros _. apply all_some_None in E.
      destruct E as [r [I N]]. right. right. right. right.
      unfold clean_row in N.
      destruct (quarter_of po (reference_period r)) eqn:Qr; [discriminate|].
      apply quarter_of_None in Qr. destruct Qr as [s [Es U]]. exists r, s. auto.
  - intros wide long H. unfold clean_international_migration in H.
    destruct (mig_quarterly_wide po tn df) as [w|] eqn:W; [|discriminate].
    injection H as <- <-.
    pose proof (MigrationFacts.wide_sorted po tn df w W) as S.
    apply MigrationFacts.wide_inv in W. destruct W as [_ [l [E ->]]].
    apply all_some_Forall2 in E.
    split; [|split; [|split; [|split]]].
    + rewrite (Permutation_length (sort_values_perm _ l)).
      symmetry. eapply Forall2_length; eauto.
    + rewrite (Permutation_map _ (sort_values_perm _ l)).
      replace (map (fun w => Some (quarter w)) l)
        with (map (fun r => quarter_of po (reference_period r)) df);
        [reflexivity|].
      apply Forall2_map_eq.
      eapply Forall2_impl; [|exact E]. intros r x C. unfold clean_row in C.
      destruct (quarter_of po (reference_period r)); [|discriminate].
      injection C as <-. reflexivity.
    + exact S.
    + unfold mig_quarterly_long.
      rewrite (Permutation_length (sort_values_perm _ _)).
      unfold melt_wide, value_columns. cbn [flat_map].
      rewrite !length_app, !length_map. simpl. lia.
    + intros x I. unfold mig_quarterly_long in I. apply sort_values_In in I.
      unfold melt_wide in I. apply in_flat_map in I. destruct I as [c [_ I]].
      apply in_map_iff in I. destruct I as [r [<- _]]. reflexivity.
Qed.

Lemma migration_all_or_nothing_witness :
  clean_international_migration Sample.period_of Sample.to_numeric
    [mkRaw (Some "Q1 2024") "10" "1" "2"; mkRaw (Some "Q1 2300") "20" "3" "4"]
  = None.
Proof.
  apply (proj2 (proj1 (migration_all_or_nothing Sample.period_of Sample.to_numeric
                         [mkRaw (Some "Q1 2024") "10" "1" "2";
                          mkRaw (Some "Q1 2300") "20" "3" "4"]))).
  right. right. right. right.
  exists (mkRaw (Some "Q1 2300") "20" "3" "4"), "Q1 2300"%string.
  split; [right; now left|]. split; [reflexivity|].
  right. exists (mkPeriod 2300 1). split; reflexivity.
Defined.

End TableFacts.

(** * From the long to the wide interprovincial table: facts *)

Module InterprovTableFacts.

Import Interprov.
Local Open Scope list_scope.

(** X9. On a successful run every cell of the consumed rows was read as
    a number and every column label as a quarter, and the long table
    holds one row per consumed row and column: its flow label, the
    column label, the number and the quarter's last day. *)
Theorem interprov_success_means_parsed :
  forall (float_of : string -> option (option Q)) (df : Frame)
         (long : list LongRow) (wide : Wide),
    clean_interprov_migration float_of df = Some (long, wide) ->
    List.length long = (List.length (labels df) * List.length (iloc_1_3 (rows df)))%nat
    /\ (forall j lbl r,
          nth_error (labels df) j = Some lbl -> In r (iloc_1_3 (rows df)) ->
          exists p q,
            to_people float_of (nth j (snd r) "nan"%string) = Some p
            /\ to_q_end lbl = Some q
            /\ In (mkLong (fst r) lbl p q) long).
Proof.
  intros fo df long wide H. unfold clean_interprov_migration in H.
  destruct (long_of fo df) as [l|] eqn:L; [|discriminate].
  destruct (pivot l); [|discriminate].
  destruct (finish_wide w); [|discriminate]. injection H as <- _.
  apply InterprovFacts.long_of_cells in L. split.
  - rewrite <- (Forall2_length L). unfold melted. apply melt_length.
  - intros j lbl r Ej Ir.
    pose proof (melt_In "nan"%string (labels df) (iloc_1_3 (rows df)) j lbl r Ej Ir)
      as M.
    destruct (Forall2_In_l _ _ _ _ L M) as [y [Iy [Ef [El [Ep Eq]]]]].
    cbn [fst snd] in *. exists (people y), (quarter y).
    split; [exact Ep|]. split; [exact Eq|].
    rewrite <- Ef, <- El. now destruct y.
Qed.

Lemma interprov_success_means_parsed_witness :
  exists p q,
    to_people Sample.float_of (nth 0 (snd ("In-migrants"%string, ["1,000"%string])) "nan"%string)
    = Some p
    /\ to_q_end "Q1 2024" = Some q
    /\ In (mkLong (fst ("In-migrants"%string, ["1,000"%string])) "Q1 2024" p q)
         [mkLong "In-migrants" "Q1 2024" (Some 1000%Q) (mkDate 2024 3 31);
          mkLong "Out-migrants" "Q1 2024" (Some 400%Q) (mkDate 2024 3 31)].
Proof.
  exact (proj2 (interprov_success_means_parsed Sample.float_of
                  (mkFrame ["Q1 2024"%string]
                     [("Units"%string, ["persons"%string]);
                      ("In-migrants"%string, ["1,000"%string]);
                      ("Out-migrants"%string, ["400"%string])])
                  _ _ eq_refl)
           0%nat "Q1 2024"%string ("In-migrants"%string, ["1,000"%string])
           eq_refl (or_introl eq_refl)).
Defined.

(** ** The canonical columns *)

Lemma finish_wide_counts (w0 wide : Wide) :
  finish_wide w0 = Some wide ->
  count_col "interprov_in" (before_net w0) = 1%nat
  /\ count_col "interprov_out" (before_net w0) = 1%nat
  /\ has_col "quarter" (set_col "interprov_net" net_of (before_net w0)) = false.
Proof.
  unfold finish_wide.
  destruct (has_col "quarter" w0); [discriminate|].
  destruct (_ && _) eqn:C; [|discriminate]. cbn [negb].
  destruct (has_col "quarter" _) eqn:Hq; [discriminate|]. intros _.
  apply andb_prop in C. destruct C as [C1 C2].
  apply Nat.eqb_eq in C1, C2. auto.
Qed.

Lemma count_col_set_other (c n : string) (f : Row -> option Q) (w : Wide) :
  c <> n -> count_col c (set_col n f w) = count_col c w.
Proof.
  intros N. unfold set_col, count_col. destruct (has_col n w); cbn [columns]; [reflexivity|].
  rewrite filter_app, length_app. cbn [filter].
  destruct (String.eqb_spec c n); [contradiction|]. simpl. lia.
Qed.

Lemma count_col_default_other (c n : string) (w : Wide) :
  c <> n -> count_col c (default_col n w) = count_col c w.
Proof.
  intros N. unfold default_col. destruct (has_col n w); [reflexivity|].
  now apply count_col_set_other.
Qed.

Lemma count_col_pos (c : string) (w : Wide) :
  In c (columns w) -> (1 <= count_col c w)%nat.
Proof.
  intros I. unfold count_col.
  assert (X : In c (filter (String.eqb c) (columns w)))
    by (apply filter_In; split; [exact I | apply String.eqb_refl]).
  destruct (filter (String.eqb c) (columns w)); [destruct X | simpl; lia].
Qed.

Lemma default_col_same (c : string) (w : Wide) :
  In c (columns w) -> default_col c w = w.
Proof.
  intros I. unfold default_col. now rewrite (proj2 (InterprovFacts.has_col_In c w) I).
Qed.

(** Rows pass through [set_col] with their other cells unchanged. *)
Lemma set_col_keeps (n : string) (f : Row -> option Q) (w : Wide) (r : Row) :
  In r (wrows w) ->
  exists r', In r' (wrows (set_col n f w)) /\ fst r' = fst r
             /\ forall m, m <> n -> get m r' = get m r.
Proof.
  intros I. unfold set_col. destruct (has_col n w); cbn [wrows].
  - exists (fst r, map (overwrite n (f r)) (snd r)). split; [|split; [reflexivity|]].
    + apply in_map_iff. exists r. auto.
    + intros m N. unfold get. cbn [snd].
      now apply InterprovFacts.lookup_overwrite_other.
  - exists (fst r, snd r ++ [(n, f r)]). split; [|split; [reflexivity|]].
    + apply in_map_iff. exists r. auto.
    + intros m N. unfold get. cbn [snd].
      now apply InterprovFacts.lookup_append_other.
Qed.

Lemma default_col_keeps (n : string) (w : Wide) (r : Row) :
  In r (wrows w) ->
  exists r', In r' (wrows (default_col n w)) /\ fst r' = fst r
             /\ forall m, m <> n \/ In n (columns w) -> get m r' = get m r.
Proof.
  intros I. unfold default_col. destruct (has_col n w) eqn:H.
  - exists r. auto.
  - destruct (set_col_keeps n (fun _ => Some 0%Q) w r I) as [r' [I' [E K]]].
    exists r'. split; [exact I'|]. split; [exact E|].
    intros m [N|X]; [now apply K|].
    apply InterprovFacts.has_col_In in X. congruence.
Qed.

Lemma default_col_columns_incl (n x : string) (w : Wide) :
  In x (columns w) -> In x (columns (default_col n w)).
Proof.
  intros I. unfold default_col, set_col. destruct (has_col n w); [exact I|].
  cbn [columns]. apply in_or_app. now left.
Qed.

(** The cell under a name that one column only is renamed to. *)
Lemma lookup_renamed (g : string -> string) (v : string -> option Q)
  (cols : list string) (c f0 : string) :
  In f0 cols -> g f0 = c ->
  List.length (filter (String.eqb c) (map g cols)) = 1%nat ->
  lookup c (map (fun f => (g f, v f)) cols) = v f0.
Proof.
  intros I G. unfold lookup. induction cols as [|h t IH]; [destruct I|].
  cbn [map filter find fst]. destruct (String.eqb_spec c (g h)) as [E|N].
  - cbn [List.length snd]. intros L. destruct I as [->|I]; [reflexivity|].
    exfalso.
    assert (X : In c (filter (String.eqb c) (map g t))).
    { apply filter_In. split; [|apply String.eqb_refl].
      apply in_map_iff. exists f0. auto. }
    destruct (filter (String.eqb c) (map g t)); [destruct X | simpl in L; lia].
  - intros L. destruct I as [->|I]; [congruence|]. now apply IH.
Qed.

(** X10. On a successful run the wide table holds the numbers of the
    long table: a long row whose flow type is renamed to interprov_in
    (its normalized label contains "in-migrants", or is that name) gives
    the interprov_in cell of the wide row of its quarter, and likewise
    for interprov_out. *)
Theorem interprov_wide_holds_long_values :
  forall (float_of : string -> option (option Q)) (df : Frame)
         (long : list LongRow) (wide : Wide) (c : string),
    clean_interprov_migration float_of df = Some (long, wide) ->
    c = "interprov_in"%string \/ c = "interprov_out"%string ->
    forall l, In l long -> canon_col (norm_col (flow_type l)) = c ->
    exists row, In row (wrows wide) /\ fst row = quarter l /\ get c row = people l.
Proof.
  intros fo df long wide c H Hc l Il Gl. unfold clean_interprov_migration in H.
  destruct (long_of fo df) as [l0|]; [|discriminate].
  destruct (pivot l0) as [w0|] eqn:P; [|discriminate].
  destruct (finish_wide w0) as [w|] eqn:F; [|discriminate].
  injection H as <- <-.
  destruct (finish_wide_counts w0 w F) as [Cin [Cout _]].
  rewrite (InterprovFacts.finish_wide_inv w0 w F). cbn [wrows].
  unfold pivot in P. destruct (has_dup _) eqn:Hd; [discriminate|].
  apply has_dup_NoDup in Hd. injection P as <-.
  set (cols := unique_sorted_str (map flow_type l0)) in *.
  set (g := fun f => canon_col (norm_col f)).
  set (w2 := rename canon_col (rename norm_col
               (mkWide cols
                  (map (fun q => (q, map (fun f => (f, pivot_cell l0 q f)) cols))
                     (unique_sorted (map quarter l0)))))).
  assert (Ecols : columns w2 = map g cols)
    by (unfold w2, rename; cbn [columns]; now rewrite map_map).
  assert (Icol : In c (columns w2)).
  { rewrite Ecols. apply in_map_iff. exists (flow_type l). split; [exact Gl|].
    apply unique_sorted_str_In. now apply in_map. }
  assert (C2 : count_col c w2 = 1%nat).
  { unfold before_net in Cin, Cout. fold w2 in Cin, Cout.
    destruct Hc as [-> | ->].
    - rewrite count_col_default_other in Cin by discriminate.
      now rewrite default_col_same in Cin.
    - rewrite default_col_same in Cout; [|].
      + now rewrite count_col_default_other in Cout by discriminate.
      + unfold default_col. destruct (has_col "interprov_in" w2); [exact Icol|].
        unfold set_col. destruct (has_col "interprov_in" w2); cbn [columns];
          [exact Icol | apply in_or_app; now left]. }
  pose (row2 := (quarter l, map (fun f => (g f, pivot_cell l0 (quarter l) f)) cols) : Row).
  assert (I2 : In row2 (wrows w2)).
  { unfold w2, rename. cbn [wrows]. rewrite !map_map. apply in_map_iff.
    exists (quarter l). split.
    - unfold row2. cbn [fst snd]. f_equal. rewrite !map_map. reflexivity.
    - apply unique_sorted_In. now apply in_map. }
  assert (G2 : get c row2 = people l).
  { unfold get, row2. cbn [snd].
    rewrite (lookup_renamed g _ cols c (flow_type l)).
    - unfold pivot_cell.
      pose proof (find_unique (fun r => (quarter r, flow_type r)) l0 l Hd Il) as Fu.
      cbn beta in Fu. now rewrite Fu.
    - apply unique_sorted_str_In. now apply in_map.
    - exact Gl.
    - unfold count_col in C2. now rewrite Ecols in C2. }
  assert (Nn : c <> "interprov_net"%string) by (destruct Hc as [-> | ->]; discriminate).
  unfold before_net. fold w2.
  destruct (default_col_keeps "interprov_in" w2 row2 I2) as [r3 [I3 [E3 K3]]].
  destruct (default_col_keeps "interprov_out" _ r3 I3) as [r4 [I4 [E4 K4]]].
  destruct (set_col_keeps "interprov_net" net_of _ r4 I4) as [r5 [I5 [E5 K5]]].
  exists r5. split; [now apply sort_values_In|]. split.
  - rewrite E5, E4, E3. reflexivity.
  - rewrite (K5 c Nn), <- G2. destruct Hc as [-> | ->].
    + rewrite K4 by (left; discriminate). apply K3. now right.
    + rewrite K4 by (right; now apply default_col_columns_incl).
      apply K3. left. discriminate.
Qed.

Lemma interprov_wide_holds_long_values_witness :
  exists row,
    In row [(mkDate 2024 3 31,
             [("interprov_in"%string, Some 1000%Q); ("interprov_out"%string, Some 400%Q);
              ("interprov_net"%string, Some 600%Q)])]
    /\ fst row = quarter (mkLong "Out-migrants" "Q1 2024" (Some 400%Q) (mkDate 2024 3 31))
    /\ get "interprov_out" row
       = people (mkLong "Out-migrants" "Q1 2024" (Some 400%Q) (mkDate 2024 3 31)).
Proof.
  exact (interprov_wide_holds_long_values Sample.float_of
           (mkFrame ["Q1 2024"%string]
              [("Units"%string, ["persons"%string]);
               ("In-migrants"%string, ["1,000"%string]);
               ("Out-migrants"%string, ["400"%string])])
           _ _ "interprov_out"%string eq_refl (or_intror eq_refl)
           (mkLong "Out-migrants" "Q1 2024" (Some 400%Q) (mkDate 2024 3 31))
           (or_intror (or_introl eq_refl)) eq_refl).
Defined.

(** X11. On a successful run the wide table is well formed: every row
    holds one cell per column, there is exactly one interprov_in and one
    interprov_out column, an interprov_net column, and no column named
    quarter besides the index. *)
Theorem interprov_wide_columns :
  forall (float_of : string -> option (option Q)) (df : Frame)
         (long : list LongRow) (wide : Wide),
    clean_interprov_migration float_of df = Some (long, wide) ->
    InterprovSpec.well_formed wide
    /\ count_col "interprov_in" wide = 1%nat
    /\ count_col "interprov_out" wide = 1%nat
    /\ In "interprov_net"%string (columns wide)
    /\ has_col "quarter" wide = false.
Proof.
  intros fo df long wide H. unfold clean_interprov_migration in H.
  destruct (long_of fo df) as [l0|]; [|discriminate].
  destruct (pivot l0) as [w0|] eqn:P; [|discriminate].
  destruct (finish_wide w0) as [w|] eqn:F; [|discriminate].
  injection H as <- <-.
  destruct (finish_wide_counts w0 w F) as [Cin [Cout Hq]].
  rewrite (InterprovFacts.finish_wide_inv w0 w F).
  set (w5 := set_col "interprov_net" net_of (before_net w0)) in *.
  assert (W5 : InterprovSpec.well_formed w5).
  { apply InterprovFacts.set_col_well_formed, InterprovFacts.before_net_well_formed.
    eapply InterprovFacts.pivot_well_formed; eauto. }
  split; [|split; [|split; [|split]]].
  - intros r I. cbn [wrows columns] in *. apply sort_values_In in I. now apply W5.
  - unfold count_col in *. cbn [columns]. fold (count_col "interprov_in" w5).
    unfold w5. now rewrite count_col_set_other by discriminate.
  - unfold count_col in *. cbn [columns]. fold (count_col "interprov_out" w5).
    unfold w5. now rewrite count_col_set_other by discriminate.
  - cbn [columns]. unfold w5, set_col.
    destruct (has_col "interprov_net" (before_net w0)) eqn:Hn; cbn [columns].
    + now apply InterprovFacts.has_col_In.
    + apply in_or_app. right. now left.
  - exact Hq.
Qed.

Lemma interprov_wide_columns_witness :
  count_col "interprov_in"
    (mkWide ["interprov_in"%string; "interprov_out"%string; "interprov_net"%string]
       [(mkDate 2024 3 31,
         [("interprov_in"%string, Some 1000%Q); ("interprov_out"%string, Some 0%Q);
          ("interprov_net"%string, Some 1000%Q)])])
  = 1%nat.
Proof.
  exact (proj1 (proj2 (interprov_wide_columns Sample.float_of
                         (mkFrame ["Q1 2024"%string]
                            [("Units"%string, ["persons"%string]);
                             ("In-migrants"%string, ["1,000"%string])])
                         _ _ eq_refl))).
Defined.

End InterprovTableFacts.

(** * The table of the second figure: facts *)

Module FigureFacts.

Import Plotting.
Local Open Scope list_scope.

Lemma merge_inner_In {A B : Type} (l : list (Date * A)) (r : list (Date * B))
  (q : Date) (a : A) (b : B) :
  In (q, a, b) (merge_inner l r) <-> In (q, a) l /\ In (q, b) r.
Proof.
  unfold merge_inner. rewrite in_flat_map. split.
  - intros [[q' a'] [Il I]]. apply in_map_iff in I. destruct I as [[q2 b2] [E I]].
    apply filter_In in I. destruct I as [Ir Eq]. cbn [fst snd] in *.
    apply date_eqb_eq in Eq. injection E as <- <- <-. subst. auto.
  - intros [Il Ir]. exists (q, a). split; [exact Il|].
    apply in_map_iff. exists (q, b). split; [reflexivity|].
    apply filter_In. split; [exact Ir|]. cbn [fst]. now apply date_eqb_eq.
Qed.

Lemma filter_key_unique {B : Type} (r : list (Date * B)) (k : Date) :
  NoDup (map fst r) ->
  (List.length (filter (fun y => date_eqb k (fst y)) r) <= 1)%nat.
Proof.
  induction r as [|[q b] t IH]; intros N; [simpl; lia|].
  cbn [map fst] in N. apply NoDup_cons_iff in N. destruct N as [Nq Nt].
  cbn [filter fst]. destruct (date_eqb k q) eqn:E; [|now apply IH].
  apply date_eqb_eq in E. subst q. cbn [List.length].
  rewrite (PolicyRateFacts.filter_none (fun y => date_eqb k (fst y)) t); [simpl; lia|].
  destruct (existsb _ t) eqn:X; [|reflexivity].
  apply existsb_exists in X. destruct X as [[q b'] [I Eq]]. cbn [fst] in Eq.
  apply date_eqb_eq in Eq. subst q. elim Nq. apply in_map_iff. exists (k, b'). auto.
Qed.

Lemma merge_inner_keys {A B : Type} (l : list (Date * A)) (r : list (Date * B)) :
  NoDup (map fst l) -> NoDup (map fst r) ->
  NoDup (map (fun x => fst (fst x)) (merge_inner l r)).
Proof.
  intros Nl Nr. induction l as [|[q a] t IH]; [constructor|].
  cbn [map fst] in Nl. apply NoDup_cons_iff in Nl. destruct Nl as [Nq Nt].
  unfold merge_inner. cbn [flat_map]. fold (merge_inner t r).
  rewrite map_app, map_map. cbn [fst snd].
  pose proof (filter_key_unique r q Nr) as L.
  destruct (filter (fun y => date_eqb q (fst y)) r) as [|y [|z u]];
    [exact (IH Nt) | | simpl in L; lia].
  cbn [map app]. constructor; [|exact (IH Nt)].
  intros I. apply in_map_iff in I. destruct I as [[[q' a'] b'] [E I]].
  cbn [fst] in E. subst q'. apply merge_inner_In in I. destruct I as [I _].
  elim Nq. apply in_map_iff. exists (q, a'). auto.
Qed.

Lemma zrange_NoDup (lo hi : Z) : NoDup (zrange lo hi).
Proof.
  unfold zrange. apply NoDup_map_NoDup_ForallPairs; [|apply seq_NoDup].
  intros a b _ _ E. lia.
Qed.

Lemma resample_bins_NoDup (ords : list Z) : NoDup (resample_bins ords).
Proof. destruct ords; [constructor | apply zrange_NoDup]. Qed.

Lemma quarter_end_of_ord_inj (a b : Z) :
  quarter_end_of_ord a = quarter_end_of_ord b -> a = b.
Proof.
  unfold quarter_end_of_ord, month_end. intros E.
  assert (Ey : a / 4 = b / 4) by exact (f_equal year E).
  assert (Em : 3 * (a mod 4) + 3 = 3 * (b mod 4) + 3) by exact (f_equal month E).
  rewrite (Z.div_mod a 4), (Z.div_mod b 4) by lia. lia.
Qed.

Lemma quarter_ends_NoDup (ks : list Z) : NoDup ks -> NoDup (map quarter_end_of_ord ks).
Proof.
  intros N. apply NoDup_map_NoDup_ForallPairs; [|exact N].
  intros a b _ _. apply quarter_end_of_ord_inj.
Qed.

(** X12. The table of the second figure holds exactly the pairs of a
    starts row and a rate row of the same quarter, in ascending order of
    quarter.  Built from the quarterly starts of the cleaner and the
    quarter-end rate of [make_figures], it has at most one row per
    quarter. *)
Theorem figure2_table_rows :
  forall (starts_q rate_q : list (Date * option Q)),
    (forall q s r,
        In (q, s, r) (starts_vs_rate starts_q rate_q)
        <-> In (q, s) starts_q /\ In (q, r) rate_q)
    /\ StronglySorted (fun a b => date_leb (fst (fst a)) (fst (fst b)) = true)
         (starts_vs_rate starts_q rate_q)
    /\ (NoDup (map fst starts_q) -> NoDup (map fst rate_q) ->
        NoDup (map (fun x => fst (fst x)) (starts_vs_rate starts_q rate_q)))
    /\ (forall (monthly : list HousingStarts.Row) (boc_daily : list PolicyRate.Row),
          NoDup (map (fun x => fst (fst x))
                   (MakeFigures.figure2_table
                      (HousingStarts.starts_quarterly monthly) boc_daily))).
Proof.
  intros S R.
  assert (K : NoDup (map fst S) -> NoDup (map fst R) ->
              NoDup (map (fun x => fst (fst x)) (starts_vs_rate S R))).
  { intros Ns Nr. unfold starts_vs_rate.
    eapply Permutation_NoDup;
      [apply Permutation_map, Permutation_sym, sort_values_perm|].
    now apply merge_inner_keys. }
  split; [|split; [|split]].
  - intros q s r. unfold starts_vs_rate. rewrite sort_values_In. apply merge_inner_In.
  - apply sort_values_sorted.
    + intros a b. apply date_leb_total.
    + intros a b c. apply date_leb_trans.
  - exact K.
  - intros monthly daily. unfold MakeFigures.figure2_table, starts_vs_rate.
    eapply Permutation_NoDup;
      [apply Permutation_map, Permutation_sym, sort_values_perm|].
    apply merge_inner_keys.
    + unfold HousingStarts.starts_quarterly. rewrite map_map. cbn [fst].
      apply quarter_ends_NoDup, resample_bins_NoDup.
    + unfold MakeFigures.rate_q. rewrite map_map. cbn [fst].
      apply quarter_ends_NoDup, resample_bins_NoDup.
Qed.

Lemma figure2_table_rows_witness :
  let starts_q := [(mkDate 2024 6 30, Some (30000 # 1)); (mkDate 2024 3 31, None);
                   (mkDate 2024 9 30, Some (31000 # 1))] in
  let rate_q := [(mkDate 2024 3 31, Some (5 # 1)); (mkDate 2024 6 30, Some (19 # 4))] in
  starts_vs_rate starts_q rate_q
  = [(mkDate 2024 3 31, None, Some (5 # 1));
     (mkDate 2024 6 30, Some (30000 # 1), Some (19 # 4))]
  /\ NoDup (map (fun x => fst (fst x)) (starts_vs_rate starts_q rate_q)).
Proof.
  intros starts_q rate_q. split; [reflexivity|].
  apply (proj1 (proj2 (proj2 (figure2_table_rows starts_q rate_q)))).
  - cbv [starts_q map fst]. repeat constructor; simpl; intuition discriminate.
  - cbv [rate_q map fst]. repeat constructor; simpl; intuition discriminate.
Defined.

End FigureFacts.

(** * Quarter labels of the migration file: facts *)

Module PeriodLabelFacts.

Import Migration.

Lemma count_space_blank (ws : string) (c : ascii) (r : string) :
  PyStr.all_chars PyStr.is_space ws = true -> PyStr.is_space c = false ->
  count_space (ws ++ String c r) = String.length ws.
Proof.
  intros W C. induction ws as [|w t IH]; simpl.
  - now rewrite C.
  - simpl in W. apply andb_prop in W. destruct W as [Ww Wt].
    rewrite Ww. f_equal. now apply IH.
Qed.

Lemma drop_blank (ws r : string) : drop (String.length ws) (ws ++ r) = r.
Proof.
  induction ws as [|w t IH]; simpl; [|exact IH].
  now destruct r.
Qed.

Lemma replace_from_past (ws r : string) (k : nat) :
  replace_from (String.length ws + k) (ws ++ r) = replace_from k r.
Proof. induction ws as [|w t IH]; simpl; [reflexivity | exact IH]. Qed.

(** X13. A reference period written as the letter Q, one digit, at
    least one blank and four digits is rewritten, for [PeriodIndex], to
    the four digits, the letter Q and the digit. *)
Theorem q_as_period_swaps_quarter_and_year :
  forall (d y1 y2 y3 y4 : ascii) (ws : string),
    PyStr.is_digit d = true ->
    PyStr.all_chars PyStr.is_digit
      (String y1 (String y2 (String y3 (String y4 EmptyString)))) = true ->
    PyStr.all_chars PyStr.is_space ws = true -> ws <> EmptyString ->
    q_as_period
      (String "Q" (String d
         (ws ++ String y1 (String y2 (String y3 (String y4 EmptyString))))))
    = String y1 (String y2 (String y3 (String y4 (String "Q" (String d EmptyString))))).
Proof.
  intros d y1 y2 y3 y4 ws Dd Dy W N.
  set (ys := String y1 (String y2 (String y3 (String y4 EmptyString)))) in *.
  unfold q_as_period.
  rewrite LabelFacts.strip_trimmed.
  - assert (S1 : PyStr.is_space y1 = false).
    { apply LabelFacts.digit_char_facts. subst ys. simpl in Dy.
      apply andb_prop in Dy. tauto. }
    assert (M : match_label (String "Q" (String d (ws ++ ys)))
                = Some (String y1 (String y2 (String y3 (String y4
                         (String "Q" (String d EmptyString))))),
                        (String.length ws + 6)%nat)).
    { unfold match_label. subst ys. cbv zeta.
      rewrite (count_space_blank ws y1 _ W S1).
      pose proof (drop_blank ws (String y1 (String y2 (String y3 (String y4 EmptyString)))))
        as Dr.
      destruct (String.length ws) as [|n] eqn:L; [destruct ws; [now elim N | discriminate L]|].
      rewrite Dr.
      simpl in Dy. rewrite !andb_true_r in Dy.
      apply andb_prop in Dy. destruct Dy as [D1 Dy].
      apply andb_prop in Dy. destruct Dy as [D2 Dy].
      apply andb_prop in Dy. destruct Dy as [D3 D4].
      now rewrite Dd, D1, D2, D3, D4. }
    cbn [replace_from]. rewrite M.
    replace (String.length ws + 6 - 1)%nat with (S (String.length ws + 4)) by lia.
    cbn [replace_from]. rewrite replace_from_past. subst ys. cbn [replace_from].
    apply PolicyRateFacts.append_nil_r.
  - reflexivity.
  - change (String "Q" (String d (ws ++ ys))) with (String "Q" (String d ws) ++ ys).
    apply LabelFacts.digits_end_trimmed; [exact Dy | subst ys; discriminate].
Qed.

Lemma q_as_period_swaps_quarter_and_year_witness :
  q_as_period "Q3  2024" = "2024Q3".
Proof.
  apply (q_as_period_swaps_quarter_and_year "3" "2" "0" "2" "4" "  ");
    [reflexivity | reflexivity | reflexivity | discriminate].
Defined.

End PeriodLabelFacts.

(** * The latest level of the resampled rate tables: facts *)

Module LatestLevelFacts.

Import PolicyRate.
Local Open Scope list_scope.

Lemma last_default {A : Type} (l : list A) (d d' : A) :
  l <> [] -> last l d = last l d'.
Proof.
  induction l as [|x t IH]; [congruence|]. intros _.
  destruct t as [|y u]; [reflexivity|].
  change (last (y :: u) d = last (y :: u) d'). apply IH. discriminate.
Qed.

Lemma last_opt_is_last {A : Type} (x : A) (t : list A) :
  last_opt (x :: t) = Some (last t x).
Proof.
  revert x. induction t as [|y u IH]; intros x; [reflexivity|].
  change (last_opt (x :: y :: u)) with (last_opt (y :: u)). rewrite IH.
  destruct u as [|z w]; [reflexivity|].
  f_equal. change (last (y :: z :: w) x) with (last (z :: w) x).
  apply last_default. discriminate.
Qed.

Lemma last_opt_snoc {A : Type} (l : list A) (x : A) : last_opt (l ++ [x]) = Some x.
Proof.
  induction l as [|y t IH]; [reflexivity|].
  change ((y :: t) ++ [x]) with (y :: (t ++ [x])).
  rewrite PolicyRateFacts.last_opt_cons; [exact IH | now destruct t].
Qed.

Lemma last_opt_zrange (lo hi : Z) : lo <= hi -> last_opt (zrange lo hi) = Some hi.
Proof.
  intros L. unfold zrange.
  replace (Z.to_nat (hi - lo + 1)) with (S (Z.to_nat (hi - lo))) by lia.
  rewrite seq_S, map_app. cbn [map]. rewrite last_opt_snoc. f_equal. lia.
Qed.

Lemma last_opt_map {A B : Type} (g : A -> B) (l : list A) :
  last_opt (map g l) = option_map g (last_opt l).
Proof.
  induction l as [|x t IH]; [reflexivity|].
  destruct t as [|y u]; [reflexivity|]. exact IH.
Qed.

Lemma last_opt_In {A : Type} (l : list A) (r : A) : last_opt l = Some r -> In r l.
Proof.
  destruct l as [|x t]; [discriminate|]. rewrite last_opt_is_last. intros E.
  injection E as <-. destruct t as [|y u]; [now left|].
  right. apply PolicyRateFacts.last_In. discriminate.
Qed.

Lemma last_opt_filter_last {A : Type} (p : A -> bool) (l : list A) (r : A) :
  last_opt l = Some r -> p r = true -> last_opt (filter p l) = Some r.
Proof.
  intros E P. induction l as [|x t IH]; [discriminate|].
  destruct t as [|y u].
  - injection E as ->. cbn [filter]. now rewrite P.
  - change (last_opt (x :: y :: u)) with (last_opt (y :: u)) in E.
    specialize (IH E). cbn [filter] in *.
    destruct (p x); [|exact IH].
    rewrite PolicyRateFacts.last_opt_cons; [exact IH|].
    intros N. rewrite N in IH. discriminate IH.
Qed.

(** The last bin of a resampling over rows sorted by period is the
    period of the last row, and that row is the last of its bin. *)
Lemma resample_last {A B : Type} (key : A -> Z) (F : Z -> option A -> B)
  (l : list A) (r : A) :
  StronglySorted (fun a b => key a <= key b) l ->
  last_opt l = Some r ->
  last_opt (map (fun k => F k (last_opt (filter (fun x => key x =? k) l)))
              (resample_bins (map key l)))
  = Some (F (key r) (Some r)).
Proof.
  intros S E. rewrite last_opt_map.
  assert (Bn : last_opt (resample_bins (map key l)) = Some (key r)).
  { destruct l as [|x t]; [discriminate|].
    pose proof S as S'.
    apply (StronglySorted_map _ Z.le key) in S'; [|auto].
    cbn [map resample_bins] in *.
    rewrite PolicyRateFacts.zmin_list_sorted, PolicyRateFacts.zmax_list_sorted
      by assumption.
    rewrite (PolicyRateFacts.last_of_map key t x).
    rewrite last_opt_is_last in E. injection E as E. rewrite E.
    apply last_opt_zrange.
    destruct t as [|y u]; [simpl in E; subst; lia|].
    inversion S as [|? ? _ Hx]; subst. rewrite Forall_forall in Hx.
    apply Hx. apply PolicyRateFacts.last_In. discriminate. }
  rewrite Bn. cbn [option_map]. f_equal. f_equal.
  apply last_opt_filter_last; [exact E | apply Z.eqb_refl].
Qed.

Lemma quarter_ord_mono (a b : Date) :
  valid_date a = true -> valid_date b = true ->
  date_leb a b = true -> quarter_ord a <= quarter_ord b.
Proof.
  intros Va Vb L. pose proof (PolicyRateFacts.month_ord_mono a b Va Vb L) as M.
  unfold valid_date in Va, Vb. unfold month_ord in M. unfold quarter_ord.
  repeat (apply andb_prop in Va; destruct Va as [Va ?]).
  repeat (apply andb_prop in Vb; destruct Vb as [Vb ?]).
  rewrite Z.leb_le in *.
  Z.to_euclidean_division_equations. lia.
Qed.

Lemma month_end_of_month (d : Date) :
  valid_date d = true -> month_end_of_ord (month_ord d) = month_end (year d) (month d).
Proof.
  intros V. unfold valid_date in V.
  repeat (apply andb_prop in V; destruct V as [V ?]). rewrite Z.leb_le in *.
  unfold month_end_of_ord, month_ord. f_equal.
  - symmetry. apply Z.div_unique with (r := month d - 1); lia.
  - assert (E : (year d * 12 + (month d - 1)) mod 12 = month d - 1)
      by (symmetry; apply Z.mod_unique with (q := year d); lia).
    rewrite E. lia.
Qed.

Lemma quarter_end_of_quarter (d : Date) :
  valid_date d = true ->
  quarter_end_of_ord (quarter_ord d)
  = month_end (year d) (3 * ((month d - 1) / 3) + 3).
Proof.
  intros V. unfold valid_date in V.
  repeat (apply andb_prop in V; destruct V as [V ?]). rewrite Z.leb_le in *.
  assert (Q3 : 0 <= (month d - 1) / 3 <= 3)
    by (Z.to_euclidean_division_equations; lia).
  unfold quarter_end_of_ord, quarter_ord. f_equal.
  - symmetry. apply Z.div_unique with (r := (month d - 1) / 3); lia.
  - assert (E : (year d * 4 + (month d - 1) / 3) mod 4 = (month d - 1) / 3)
      by (symmetry; apply Z.mod_unique with (q := year d); lia).
    now rewrite E.
Qed.

(** X14. Over daily rows in ascending order of valid dates, the last
    row of the month-end table is dated at the end of the month of the
    last daily row and holds its rate; the last row of the quarter-end
    rate of [make_figures] is dated at the end of that row's quarter and
    holds the same rate. *)
Theorem latest_level_is_latest_observation :
  forall (daily : list Row) (r : Row),
    StronglySorted (fun a b => date_leb (date a) (date b) = true) daily ->
    (forall x, In x daily -> valid_date (date x) = true) ->
    last_opt daily = Some r ->
    last_opt (boc_monthly_end daily)
    = Some (month_end (year (date r)) (month (date r)), Some (policy_rate_pct r))
    /\ last_opt (MakeFigures.rate_q daily)
       = Some (month_end (year (date r)) (3 * ((month (date r) - 1) / 3) + 3),
               Some (policy_rate_pct r)).
Proof.
  intros daily r S V E.
  assert (Vr : valid_date (date r) = true) by (apply V; now apply last_opt_In).
  split.
  - unfold boc_monthly_end.
    rewrite (resample_last (fun x => month_ord (date x))
               (fun k o => (month_end_of_ord k, option_map policy_rate_pct o)) daily r).
    + cbn [option_map]. now rewrite month_end_of_month.
    + eapply StronglySorted_keys; [|exact S].
      intros a b Ia Ib. apply PolicyRateFacts.month_ord_mono; auto.
    + exact E.
  - unfold MakeFigures.rate_q.
    rewrite (resample_last (fun x => quarter_ord (date x))
               (fun k o => (quarter_end_of_ord k, option_map policy_rate_pct o)) daily r).
    + cbn [option_map]. now rewrite quarter_end_of_quarter.
    + eapply StronglySorted_keys; [|exact S].
      intros a b Ia Ib. apply quarter_ord_mono; auto.
    + exact E.
Qed.

Lemma latest_level_is_latest_observation_witness :
  let daily := [mkRow (mkDate 2024 1 24) (5 # 1); mkRow (mkDate 2024 6 5) (19 # 4);
                mkRow (mkDate 2024 7 24) (9 # 2)] in
  last_opt (boc_monthly_end daily) = Some (mkDate 2024 7 31, Some (9 # 2))
  /\ last_opt (MakeFigures.rate_q daily) = Some (mkDate 2024 9 30, Some (9 # 2)).
Proof.
  intros daily.
  apply (latest_level_is_latest_observation daily (mkRow (mkDate 2024 7 24) (9 # 2))).
  - repeat constructor.
  - intros x [<-|[<-|[<-|[]]]]; reflexivity.
  - reflexivity.
Defined.

End LatestLevelFacts.
